(** * Prometheus remote-write output: aggregation, de-duplication and flush

    A shallow embedding of [pkg/remotewrite/remotewrite.go].  Go packages
    are rendered as modules ([time], [metrics], [prompb]); the methods of
    [Output] live at top level under their Go names.  Code that mutates the
    receiver is written in a small state-and-panic monad over [Output]. *)

From Stdlib Require Import ZArith Ascii String List Lia PrimFloat Uint63.
From stdpp Require Import base gmap sets list strings countable.

Local Open Scope string_scope.
Local Open Scope Z_scope.

(* stdpp's solvers clear hypotheses that may already be gone. *)
#[local] Set Warnings "-clear-no-such-hyp".

(** ** Results, errors and panics *)

Definition error : Type := string.

Inductive result (A : Type) : Type :=
| Ok (a : A)
| Err (e : error).
Arguments Ok {A} a.
Arguments Err {A} e.

Definition isErr {A} (r : result A) : bool :=
  match r with Err _ => true | Ok _ => false end.

(** ** Package [time]

    A [Time] is an instant counted in nanoseconds from the Unix epoch.  Go
    counts from January 1 of year 1; the two origins are a whole number of
    seconds apart, so flooring to a millisecond gives the same instant. *)

Module time.

Definition Duration : Type := Z.
Definition Time : Type := Z.

Definition Millisecond : Duration := 1000000.

(** [t.Truncate(d)]: round down to a multiple of [d]; unchanged when
    [d <= 0]. *)
Definition Truncate (t : Time) (d : Duration) : Time :=
  if d <=? 0 then t else t - t mod d.

(** [t.After(u)] *)
Definition After (t u : Time) : bool := u <? t.

(** An [int64] computation wraps around: the result is the representative
    in [-2^63, 2^63) of the mathematical value modulo [2^64]. *)
Definition wrap64 (z : Z) : Z := (z + 2 ^ 63) mod 2 ^ 64 - 2 ^ 63.

(** [t.UnixMilli()]: [t.unixSec()*1e3 + int64(t.nsec())/1e6] in [int64]
    arithmetic, the number of whole milliseconds since the epoch wrapped
    to 64 bits. *)
Definition UnixMilli (t : Time) : Z := wrap64 (t / 1000000).

(** The zero value [time.Time{}], January 1 of year 1. *)
Definition zero : Time := -62135596800000000000.

End time.

(** ** Package [metrics] (k6) *)

Module metrics.

(** [MetricType] is an integer enumeration; any other integer is a value
    of the type as well. *)
Definition MetricType : Type := Z.
Definition Counter : MetricType := 0.
Definition Gauge : MetricType := 1.
Definition Trend : MetricType := 2.
Definition Rate : MetricType := 3.

Record Metric : Type := mkMetric {
  Name : string;
  Type_ : MetricType
}.

(** The key of the series table.  k6 interns metrics and tag sets, so that
    comparing the two pointers of a [TimeSeries] compares name, kind and
    labels. *)
Record TimeSeries : Type := mkTimeSeries {
  Metric_ : Metric;
  Tags : list (string * string)
}.

Record Sample : Type := mkSample {
  Series : TimeSeries;
  Time : time.Time;
  Value : float
}.

(** A [SampleContainer] is used through [GetSamples] only. *)
Definition SampleContainer : Type := list Sample.
Definition GetSamples (c : SampleContainer) : list Sample := c.

(** Modelled from the spec: the retained observations of k6's [TrendSink]
    (the type is declared in the k6 library).  [Sum] is the field that
    [setTrendStatsResolver] reads. *)
Record TrendSink : Type := mkTrendSink {
  Values : list float;
  Sum : float
}.

Definition TrendSink_Add (t : TrendSink) (v : float) : TrendSink :=
  {| Values := (Values t ++ [v])%list; Sum := PrimFloat.add (Sum t) v |}.

End metrics.

#[global] Instance Metric_eq_dec : EqDecision metrics.Metric.
Proof. solve_decision. Defined.

#[global] Instance TimeSeries_eq_dec : EqDecision metrics.TimeSeries.
Proof. solve_decision. Defined.

#[global] Instance Metric_countable : Countable metrics.Metric.
Proof.
  refine (inj_countable'
            (fun m => (metrics.Name m, metrics.Type_ m))
            (fun p => metrics.mkMetric p.1 p.2) _).
  by intros [].
Defined.

#[global] Instance TimeSeries_countable : Countable metrics.TimeSeries.
Proof.
  refine (inj_countable'
            (fun s => (metrics.Metric_ s, metrics.Tags s))
            (fun p => metrics.mkTimeSeries p.1 p.2) _).
  by intros [].
Defined.

(** A trend statistic, a Go function from a pointer to [metrics.TrendSink]
    to [float64]. *)
Definition Resolver : Type := metrics.TrendSink -> float.

(** ** Package [prompb] *)

Module prompb.

Record Label : Type := mkLabel {
  LabelName : string;
  LabelValue : string
}.

Record Sample : Type := mkSample {
  Value : float;
  Timestamp : Z
}.

(** A histogram-valued point; [H] is the snapshot of the accumulator it
    was converted from. *)
Record Histogram (H : Type) : Type := mkHistogram {
  HTimestamp : Z;
  HBody : H
}.
Arguments mkHistogram {H} _ _.
Arguments HTimestamp {H} _.
Arguments HBody {H} _.

Record TimeSeries (H : Type) : Type := mkTimeSeries {
  Labels : list Label;
  Samples : list Sample;
  Histograms : list (Histogram H)
}.
Arguments mkTimeSeries {H} _ _ _.
Arguments Labels {H} _.
Arguments Samples {H} _.
Arguments Histograms {H} _.

End prompb.

(** ** Configuration

    The fields of [Config] that [remotewrite.go] reads. *)

Record Config : Type := mkConfig {
  URL : string;
  PushInterval : time.Duration;
  TrendStats : list string;
  TrendAsNativeHistogram : bool
}.

(** ** Collaborators

    What [remotewrite.go] calls but does not define: the k6 table of trend
    statistics, and the files of this package that hold the trend sinks,
    the label mapping, the configuration and the write client. *)

Class Collaborators : Type := {
  (** one entry of k6's [GetResolversForTrendColumns]: the computation a
      column name stands for, or the error the library reports for it *)
  columnResolver : string -> result Resolver;
  (** the error of [newExtendedTrendSink], when it refuses the table *)
  extendedTrendSinkError : gmap string Resolver -> option error;
  (** the accumulator behind [nativeHistogramSink] *)
  NativeHistogram : Type;
  NewHistogram : metrics.Metric -> NativeHistogram;
  Observe : NativeHistogram -> float -> NativeHistogram;
  (** [MapSeries(series, suffix)]: the sorted labels plus the name label *)
  MapSeries : metrics.TimeSeries -> string -> list prompb.Label;
  (** construction *)
  Params : Type;
  ClientConfig : Type;
  WriteClient : Type;
  GetConsolidatedConfig : Params -> result Config;
  RemoteConfig : Config -> result ClientConfig;
  NewWriteClient : string -> ClientConfig -> result WriteClient
}.

(** Go leaves the order of [range] over a map unspecified. *)
Class MapRange : Type := {
  rangeSeen : gset metrics.TimeSeries -> list metrics.TimeSeries;
  rangeSeen_perm : forall X, rangeSeen X ≡ₚ elements X;
  rangeResolvers : gmap string Resolver -> list (string * Resolver);
  rangeResolvers_perm : forall m, rangeResolvers m ≡ₚ map_to_list m
}.

(** What a panic carries. *)
Inductive PanicValue : Type :=
| PanicUnsupportedType (ty : metrics.MetricType)
    (* "metric type %q unsupported" *)
| PanicError (e : error)
    (* panic(err) *)
| PanicNotMapper
    (* "Measure for Trend types must implement MapPromPb" *)
| PanicUnrecognizedType (name : string) (ty : metrics.MetricType)
    (* "Something is really off, as I cannot recognize the type ..." *)
| PanicRuntime (what : string).
    (* failed type assertion, nil dereference, slice bounds *)

Inductive outcome (A : Type) : Type :=
| Done (a : A)
| Panicked (p : PanicValue).
Arguments Done {A} a.
Arguments Panicked {A} p.

(** The conversion [float64(n)] of an integer count. *)
Definition float64_of_int64 (z : Z) : float :=
  if z <? 0 then PrimFloat.opp (PrimFloat.of_uint63 (Uint63.of_Z (- z)))
  else PrimFloat.of_uint63 (Uint63.of_Z z).

Section remotewrite.

Context {collab : Collaborators} {order : MapRange}.

(** ** Sinks

    [metrics.Sink] and the five types behind it that this package stores. *)

Inductive Sink : Type :=
| CounterSink (Value : float)
| GaugeSink (Value : float)
| RateSink (Trues Total : Z)
| extendedTrendSink (TrendSink : metrics.TrendSink)
                    (trendStats : gmap string Resolver)
| nativeHistogramSink (H : NativeHistogram).

(** Modelled from the spec: [Sink.Add] of the k6 sinks and of the two trend
    sinks, whose files are not part of this tree.  A counter adds, a gauge
    overwrites, a rate counts every sample and the non-zero ones, a classic
    trend retains the observation, a native histogram observes it.  The two
    counts of a rate are unbounded here. *)
Definition Sink_Add (s : Sink) (sample : metrics.Sample) : Sink :=
  let v := metrics.Value sample in
  match s with
  | CounterSink c => CounterSink (PrimFloat.add c v)
  | GaugeSink _ => GaugeSink v
  | RateSink trues total =>
      RateSink (if PrimFloat.eqb v PrimFloat.zero then trues else trues + 1)
               (total + 1)
  | extendedTrendSink t tsr => extendedTrendSink (metrics.TrendSink_Add t v) tsr
  | nativeHistogramSink h => nativeHistogramSink (Observe h v)
  end.

(** Modelled from the spec: the ["rate"] entry of [RateSink.Format], the
    ratio of the two counts, or 0 when nothing was counted. *)
Definition RateSink_Format_rate (trues total : Z) : float :=
  if total =? 0 then PrimFloat.zero
  else PrimFloat.div (float64_of_int64 trues) (float64_of_int64 total).

(** The state of one series: its identity, its sink and the latest
    truncated time at which it was marked. *)
Record seriesWithMeasure : Type := mkSeriesWithMeasure {
  TimeSeries : metrics.TimeSeries;
  Measure : Sink;
  Latest : time.Time
}.

Definition setLatest (swm : seriesWithMeasure) (t : time.Time) :
  seriesWithMeasure :=
  {| TimeSeries := TimeSeries swm; Measure := Measure swm; Latest := t |}.

Definition setMeasure (swm : seriesWithMeasure) (m : Sink) :
  seriesWithMeasure :=
  {| TimeSeries := TimeSeries swm; Measure := m; Latest := Latest swm |}.

(** The fields of [Output] that its methods read or write.  The logger,
    the sample buffer and the calls of the client appear as the events and
    the inputs of [flush]. *)
Record Output : Type := mkOutput {
  config : Config;
  tsdb : gmap metrics.TimeSeries seriesWithMeasure;
  trendStatsResolver : gmap string Resolver;
  client : WriteClient
}.

Definition setTsdb (o : Output)
  (db : gmap metrics.TimeSeries seriesWithMeasure) : Output :=
  {| config := config o; tsdb := db;
     trendStatsResolver := trendStatsResolver o; client := client o |}.

Definition setResolver (o : Output) (tsr : gmap string Resolver) : Output :=
  {| config := config o; tsdb := tsdb o;
     trendStatsResolver := tsr; client := client o |}.

(** ** The monad of the methods of [Output]: the receiver is threaded, a
    panic stops the computation and keeps the receiver as it was then. *)

Definition M (A : Type) : Type := Output -> outcome A * Output.

Definition ret {A} (a : A) : M A := fun o => (Done a, o).

Definition bind {A B} (m : M A) (k : A -> M B) : M B :=
  fun o =>
    match m o with
    | (Done a, o') => k a o'
    | (Panicked p, o') => (Panicked p, o')
    end.

Definition lift {A} (x : outcome A) : M A := fun o => (x, o).

Definition get : M Output := fun o => (Done o, o).

Definition modify (f : Output -> Output) : M unit := fun o => (Done tt, f o).

Notation "'do' x <- m ; k" := (bind m (fun x => k))
  (at level 10, x name, m at level 100, k at level 200).

Fixpoint foldM {A B} (f : B -> A -> M B) (b : B) (l : list A) : M B :=
  match l with
  | [] => ret b
  | x :: l' => do b' <- f b x; foldM f b' l'
  end.

(** ** Sink construction *)

(** Modelled from the spec: [newExtendedTrendSink] keeps the resolver table
    it is given and starts with no observation; its file is not part of
    this tree, and the condition under which it reports an error is
    [extendedTrendSinkError]. *)
Definition newExtendedTrendSink (tsr : gmap string Resolver) : result Sink :=
  match extendedTrendSinkError tsr with
  | Some e => Err e
  | None =>
      Ok (extendedTrendSink
            {| metrics.Values := []; metrics.Sum := PrimFloat.zero |} tsr)
  end.

(** Modelled from the spec: [newNativeHistogramSink] wraps a fresh
    histogram for the metric. *)
Definition newNativeHistogramSink (m : metrics.Metric) : Sink :=
  nativeHistogramSink (NewHistogram m).

Definition newSeriesWithMeasure (series : metrics.TimeSeries)
  (trendAsNativeHistogram : bool) (tsr : gmap string Resolver) :
  outcome seriesWithMeasure :=
  let ty := metrics.Type_ (metrics.Metric_ series) in
  let sink : outcome Sink :=
    if ty =? metrics.Counter then Done (CounterSink PrimFloat.zero)
    else if ty =? metrics.Gauge then Done (GaugeSink PrimFloat.zero)
    else if ty =? metrics.Trend then
      if trendAsNativeHistogram
      then Done (newNativeHistogramSink (metrics.Metric_ series))
      else match newExtendedTrendSink tsr with
           | Ok sink => Done sink
           | Err err => Panicked (PanicError err)
           end
    else if ty =? metrics.Rate then Done (RateSink 0 0)
    else Panicked (PanicUnsupportedType ty) in
  match sink with
  | Done sink =>
      Done {| TimeSeries := series; Measure := sink; Latest := time.zero |}
  | Panicked p => Panicked p
  end.

(** ** Encoding *)

Definition PbSeries : Type := prompb.TimeSeries NativeHistogram.

Definition mapMonoSeries (s : metrics.TimeSeries) (t : time.Time) : PbSeries :=
  {| prompb.Labels := MapSeries s "";
     prompb.Samples :=
       [ {| prompb.Value := PrimFloat.zero;
            prompb.Timestamp := time.UnixMilli t |} ];
     prompb.Histograms := [] |}.

(** [ts.Samples[0].Value = v] *)
Definition setSample0Value (ts : PbSeries) (v : float) : PbSeries :=
  {| prompb.Labels := prompb.Labels ts;
     prompb.Samples :=
       alter (fun p => {| prompb.Value := v;
                          prompb.Timestamp := prompb.Timestamp p |})
             0%nat (prompb.Samples ts);
     prompb.Histograms := prompb.Histograms ts |}.

(** Modelled from the spec: [MapPrompb] of the two trend sinks, the
    [prompbMapper]s of this package, whose files are not part of this
    tree.  The classic sink gives one wire series per requested statistic,
    named with the statistic as suffix and holding one point; the native
    sink gives one wire series holding one histogram. *)
Definition trend_MapPrompb (sink : Sink) (series : metrics.TimeSeries)
  (t : time.Time) : option (list PbSeries) :=
  match sink with
  | extendedTrendSink ts tsr =>
      Some (map (fun '(stat, statfn) =>
                   {| prompb.Labels := MapSeries series stat;
                      prompb.Samples :=
                        [ {| prompb.Value := statfn ts;
                             prompb.Timestamp := time.UnixMilli t |} ];
                      prompb.Histograms := [] |})
                (rangeResolvers tsr))
  | nativeHistogramSink h =>
      Some [ {| prompb.Labels := MapSeries series "";
                prompb.Samples := [];
                prompb.Histograms :=
                  [ prompb.mkHistogram (time.UnixMilli t) h ] |} ]
  | _ => None
  end.

Definition MapPrompb (swm : seriesWithMeasure) : outcome (list PbSeries) :=
  let ty := metrics.Type_ (metrics.Metric_ (TimeSeries swm)) in
  if ty =? metrics.Counter then
    let ts := mapMonoSeries (TimeSeries swm) (Latest swm) in
    match Measure swm with
    | CounterSink v => Done [setSample0Value ts v]
    | _ => Panicked (PanicRuntime "interface conversion")
    end
  else if ty =? metrics.Gauge then
    let ts := mapMonoSeries (TimeSeries swm) (Latest swm) in
    match Measure swm with
    | GaugeSink v => Done [setSample0Value ts v]
    | _ => Panicked (PanicRuntime "interface conversion")
    end
  else if ty =? metrics.Rate then
    let ts := mapMonoSeries (TimeSeries swm) (Latest swm) in
    match Measure swm with
    | RateSink trues total =>
        Done [setSample0Value ts (RateSink_Format_rate trues total)]
    | _ => Panicked (PanicRuntime "interface conversion")
    end
  else if ty =? metrics.Trend then
    match trend_MapPrompb (Measure swm) (TimeSeries swm) (Latest swm) with
    | Some newts => Done newts
    | None => Panicked PanicNotMapper
    end
  else
    Panicked (PanicUnrecognizedType
                (metrics.Name (metrics.Metric_ (TimeSeries swm))) ty).

(** ** Aggregation *)

(** The body of the inner loop of [convertToPbSeries]. *)
Definition addSample (seen : gset metrics.TimeSeries)
  (sample : metrics.Sample) : M (gset metrics.TimeSeries) :=
  let series := metrics.Series sample in
  let truncTime := time.Truncate (metrics.Time sample) time.Millisecond in
  do o <- get;
  do found <-
    match tsdb o !! series with
    | None =>
        do swm <- lift (newSeriesWithMeasure series
                          (TrendAsNativeHistogram (config o))
                          (trendStatsResolver o));
        ret (setLatest swm truncTime, {[ series ]} ∪ seen)
    | Some swm =>
        if time.After truncTime (Latest swm)
        then ret (setLatest swm truncTime, {[ series ]} ∪ seen)
        else ret (swm, seen)
    end;
  do _ <- modify (fun o =>
            setTsdb o (<[ series :=
                            setMeasure found.1 (Sink_Add (Measure found.1) sample) ]>
                         (tsdb o)));
  ret found.2.

(** The two nested loops over the containers and their samples; the
    result is the [seen] map. *)
Definition aggregate (samplesContainers : list metrics.SampleContainer) :
  M (gset metrics.TimeSeries) :=
  foldM (fun seen samplesContainer =>
           foldM addSample seen (metrics.GetSamples samplesContainer))
        ∅ samplesContainers.

(** The body of the last loop:
    [pbseries = append(pbseries, o.tsdb[s].MapPrompb()...)]. *)
Definition encodeSeries (pbseries : list PbSeries) (s : metrics.TimeSeries) :
  M (list PbSeries) :=
  do o <- get;
  match tsdb o !! s with
  | None => lift (Panicked (PanicRuntime "nil pointer dereference"))
  | Some swm =>
      do newts <- lift (MapPrompb swm);
      ret (pbseries ++ newts)%list
  end.

(** The last loop, over the series of [seen]. *)
Definition encode (seen : gset metrics.TimeSeries) : M (list PbSeries) :=
  foldM encodeSeries [] (rangeSeen seen).

Definition convertToPbSeries
  (samplesContainers : list metrics.SampleContainer) : M (list PbSeries) :=
  do seen <- aggregate samplesContainers;
  encode seen.

(** ** Trend statistics *)

(** [strings.ReplaceAll(s, old, "")] for a one-byte [old]. *)
Fixpoint ReplaceAll_empty (s : string) (old : ascii) : string :=
  match s with
  | EmptyString => EmptyString
  | String c s' =>
      if Ascii.eqb c old then ReplaceAll_empty s' old
      else String c (ReplaceAll_empty s' old)
  end.

(** The key of a statistic in [o.trendStatsResolver]: the body of the last
    loop of [setTrendStatsResolver].  The slice [stat[2 : len(statKey)-1]]
    panics when its upper bound is below 2. *)
Definition statKeyOf (stat : string) : outcome string :=
  let statKey := stat in
  if String.prefix "p(" statKey then
    if (String.length statKey <? 3)%nat
    then Panicked (PanicRuntime "slice bounds out of range")
    else
      let statKey := String.substring 2 (String.length statKey - 3) stat in
      let statKey := ReplaceAll_empty statKey "."%char in
      Done ("p" ++ statKey)
  else Done statKey.

(** Modelled from the spec: k6's [GetResolversForTrendColumns] builds the
    table from the column names in order, keyed by the names as given, and
    reports the error of the first name that stands for no computation. *)
Fixpoint resolveColumns (trendColumns : list string)
  (acc : gmap string Resolver) : result (gmap string Resolver) :=
  match trendColumns with
  | [] => Ok acc
  | stat :: rest =>
      match columnResolver stat with
      | Err e => Err e
      | Ok fn => resolveColumns rest (<[ stat := fn ]> acc)
      end
  end.

Definition GetResolversForTrendColumns (trendColumns : list string) :
  result (gmap string Resolver) :=
  resolveColumns trendColumns ∅.

(** The first loop of [setTrendStatsResolver]: the copy without ["sum"],
    and whether ["sum"] was met. *)
Definition copyExcludingSum (trendStats : list string) : list string * bool :=
  foldl (fun '(trendStatsCopy, hasSum) stat =>
           if String.eqb stat "sum" then (trendStatsCopy, true)
           else ((trendStatsCopy ++ [stat])%list, hasSum))
        ([], false) trendStats.

(** The body of the last loop of [setTrendStatsResolver]:
    [o.trendStatsResolver[statKey] = fn]. *)
Definition storeResolver (_ : unit) (entry : string * Resolver) : M unit :=
  let '(stat, fn) := entry in
  do statKey <- lift (statKeyOf stat);
  modify (fun o =>
    setResolver o (<[ statKey := fn ]> (trendStatsResolver o))).

Definition setTrendStatsResolver (trendStats : list string) :
  M (option error) :=
  let '(trendStatsCopy, hasSum) := copyExcludingSum trendStats in
  match GetResolversForTrendColumns trendStatsCopy with
  | Err err => ret (Some err)
  | Ok resolvers =>
      let resolvers :=
        if hasSum then <[ "sum" := metrics.Sum ]> resolvers else resolvers in
      do _ <- modify (fun o => setResolver o ∅);
      do _ <- foldM storeResolver tt (rangeResolvers resolvers);
      ret None
  end.

Definition New (params : Params) : outcome (result Output) :=
  match GetConsolidatedConfig params with
  | Err err => Done (Err err)
  | Ok config =>
      match RemoteConfig config with
      | Err err => Done (Err err)
      | Ok clientConfig =>
          match NewWriteClient (URL config) clientConfig with
          | Err err =>
              Done (Err ("failed to initialize the Prometheus remote write client: "
                         ++ err))
          | Ok wc =>
              let o := {| client := wc; config := config; tsdb := ∅;
                          trendStatsResolver := ∅ |} in
              if (0 <? length (TrendStats config))%nat then
                match setTrendStatsResolver (TrendStats config) o with
                | (Done (Some err), _) => Done (Err err)
                | (Done None, o') => Done (Ok o')
                | (Panicked p, _) => Panicked p
                end
              else Done (Ok o)
          end
      end
  end.

(** ** Flush *)

(** What one run of [flush] meets outside the output: the containers that
    [GetBufferedSamples] drains, the time [time.Since(start)] reads in the
    deferred function, and the answer of [client.Store]. *)
Record FlushEnv : Type := mkFlushEnv {
  buffered : list metrics.SampleContainer;
  elapsed : time.Duration;
  store : list PbSeries -> option error
}.

(** What one run of [flush] does outside the output. *)
Inductive Event : Type :=
| DebugNoSamples
    (* Debug "no buffered samples, skip the flushing operation" *)
| DebugConverted (nts : nat)
    (* Debug "Converted samples to Prometheus TimeSeries" *)
| Store (batch : list PbSeries)
    (* o.client.Store(ctx, promTimeSeries) *)
| ErrorStore (err : error)
    (* Error "Failed to send the time series data to the endpoint" *)
| WarnSlow (nts : nat) (d period : time.Duration)
    (* Warnf "... Some samples may be dropped." *)
| DebugFlushed (nts : nat) (d : time.Duration).
    (* Debug "Successful flushed time series to remote write endpoint" *)

Record FlushResult : Type := mkFlushResult {
  after : Output;
  trace : list Event;
  panicked : option PanicValue
}.

(** The deferred function of [flush]; it runs last, also under a panic. *)
Definition flushDeferred (o : Output) (d : time.Duration) (nts : nat) : Event :=
  if PushInterval (config o) <? d
  then WarnSlow nts d (PushInterval (config o))
  else DebugFlushed nts d.

Definition flush (env : FlushEnv) (o : Output) : FlushResult :=
  let samplesContainers := buffered env in
  if (length samplesContainers <? 1)%nat then
    {| after := o;
       trace := [DebugNoSamples; flushDeferred o (elapsed env) 0];
       panicked := None |}
  else
    match convertToPbSeries samplesContainers o with
    | (Panicked p, o') =>
        {| after := o';
           trace := [flushDeferred o' (elapsed env) 0];
           panicked := Some p |}
    | (Done promTimeSeries, o') =>
        let nts := length promTimeSeries in
        match store env promTimeSeries with
        | Some err =>
            {| after := o';
               trace := [DebugConverted nts; Store promTimeSeries;
                         ErrorStore err; flushDeferred o' (elapsed env) nts];
               panicked := None |}
        | None =>
            {| after := o';
               trace := [DebugConverted nts; Store promTimeSeries;
                         flushDeferred o' (elapsed env) nts];
               panicked := None |}
        end
    end.

(** A run of the output: one [flush] per tick, until one panics. *)
Fixpoint flushes (envs : list FlushEnv) (o : Output) : list FlushResult :=
  match envs with
  | [] => []
  | env :: rest =>
      let r := flush env o in
      match panicked r with
      | Some _ => [r]
      | None => r :: flushes rest (after r)
      end
  end.

End remotewrite.

(** * Vocabulary of the properties *)

Section vocabulary.

Context {collab : Collaborators} {order : MapRange}.

Implicit Types (o : Output) (env : FlushEnv) (seen : gset metrics.TimeSeries)
  (sample : metrics.Sample) (swm : seriesWithMeasure)
  (s : metrics.TimeSeries) (stat k : string) (fn : Resolver).

(** The truncated time of a sample. *)
Definition truncTimeOf sample : time.Time :=
  time.Truncate (metrics.Time sample) time.Millisecond.

(** The sink chosen for a kind: what "kind-appropriate" means. *)
Definition sinkFor (series : metrics.TimeSeries) (native : bool)
  (tsr : gmap string Resolver) (sink : Sink) : Prop :=
  let ty := metrics.Type_ (metrics.Metric_ series) in
  (ty = metrics.Counter /\ sink = CounterSink PrimFloat.zero) \/
  (ty = metrics.Gauge /\ sink = GaugeSink PrimFloat.zero) \/
  (ty = metrics.Rate /\ sink = RateSink 0 0) \/
  (ty = metrics.Trend /\ native = true /\
   sink = nativeHistogramSink (NewHistogram (metrics.Metric_ series))) \/
  (ty = metrics.Trend /\ native = false /\
   sink = extendedTrendSink
            {| metrics.Values := []; metrics.Sum := PrimFloat.zero |} tsr).

(** Every series of [o] is a series of [o'], with a latest time that is
    not earlier. *)
Definition latest_le o o' : Prop :=
  forall s swm, tsdb o !! s = Some swm ->
    exists swm', tsdb o' !! s = Some swm' /\ Latest swm <= Latest swm'.

(** [o'] has the configuration, the resolver table and the client of
    [o]. *)
Definition same_settings o o' : Prop :=
  config o' = config o /\ trendStatsResolver o' = trendStatsResolver o /\
  client o' = client o.

(** The events of a flush, by what the operator or the network sees. *)
Definition isWarning (e : Event) : bool :=
  match e with WarnSlow _ _ _ => true | _ => false end.

Definition isStore (e : Event) : bool :=
  match e with Store _ => true | _ => false end.

Definition isErrorLog (e : Event) : bool :=
  match e with ErrorStore _ => true | _ => false end.

(** The four kinds of the two switches. *)
Definition recognized (ty : metrics.MetricType) : Prop :=
  ty = metrics.Counter \/ ty = metrics.Gauge \/
  ty = metrics.Rate \/ ty = metrics.Trend.

(** The entries that the last loop ranges over. *)
Definition requested (trendStats : list string) stat fn : Prop :=
  stat ∈ trendStats /\
  ((stat = "sum" /\ fn = metrics.Sum) \/
   (stat ≠ "sum" /\ columnResolver stat = Ok fn)).

(** The timestamps of the points of one wire series, samples first. *)
Definition timestamps (ts : PbSeries) : list Z :=
  (map prompb.Timestamp (prompb.Samples ts)
   ++ map prompb.HTimestamp (prompb.Histograms ts))%list.


(** The samples of one series in a batch, in arrival order. *)
Definition samplesOf s (containers : list metrics.SampleContainer) :
  list metrics.Sample :=
  List.filter (fun sample => bool_decide (metrics.Series sample = s))
              (concat containers).

(** The sink that the next sample of a series is added to: the stored
    one, or the one the factory builds. *)
Definition measureOf o s : outcome Sink :=
  match tsdb o !! s with
  | Some swm => Done (Measure swm)
  | None =>
      match newSeriesWithMeasure s (TrendAsNativeHistogram (config o))
              (trendStatsResolver o) with
      | Done swm0 => Done (Measure swm0)
      | Panicked p => Panicked p
      end
  end.

(** From [o] to [o'] the sink of [s] received exactly [samples]. *)
Definition accumulated s o o' (samples : list metrics.Sample) : Prop :=
  same_settings o o' /\
  forall base, measureOf o s = Done base ->
    match samples with
    | [] => tsdb o' !! s = tsdb o !! s
    | _ => exists swm', tsdb o' !! s = Some swm' /\
                        Measure swm' = foldl Sink_Add base samples
    end.

(** The output after a run of flushes: the one the last flush leaves. *)
Fixpoint run (envs : list FlushEnv) o : Output :=
  match envs with
  | [] => o
  | env :: rest =>
      match panicked (flush env o) with
      | Some _ => after (flush env o)
      | None => run rest (after (flush env o))
      end
  end.

(** What a rate counts as a non-zero sample. *)
Definition nonZero (v : float) : bool := negb (PrimFloat.eqb v PrimFloat.zero).

(** Every state of the table is stored under its own series. *)
Definition keyed o : Prop :=
  forall s swm, tsdb o !! s = Some swm -> TimeSeries swm = s.

Definition keeps_keyed o o' : Prop := keyed o -> keyed o'.

(** The value of the one point that [MapPrompb] gives for a state. *)
Definition emitted swm : option float :=
  match MapPrompb swm with
  | Done [ts] => head (map prompb.Value (prompb.Samples ts))
  | _ => None
  end.

(** The latest time of a series after its samples, from the latest time it
    had, if it had one: the first sample of a new series sets it, every
    other sample raises it to its own truncated time if that is later. *)
Definition latestAfter (latest : option time.Time)
  (samples : list metrics.Sample) : option time.Time :=
  foldl (fun acc sample =>
           Some match acc with
                | None => truncTimeOf sample
                | Some t => Z.max t (truncTimeOf sample)
                end)
        latest samples.

(** The sink is of the type that [newSeriesWithMeasure] builds for the
    kind, the one that [MapPrompb] asserts. *)
Definition sinkKind (ty : metrics.MetricType) (sink : Sink) : Prop :=
  match sink with
  | CounterSink _ => ty = metrics.Counter
  | GaugeSink _ => ty = metrics.Gauge
  | RateSink _ _ => ty = metrics.Rate
  | extendedTrendSink _ _ => ty = metrics.Trend
  | nativeHistogramSink _ => ty = metrics.Trend
  end.

(** Every state of the table is stored under its own series and holds
    the sink of its kind. *)
Definition coherent o : Prop :=
  forall s swm, tsdb o !! s = Some swm ->
    TimeSeries swm = s /\
    sinkKind (metrics.Type_ (metrics.Metric_ s)) (Measure swm).

(** Every latest time of the table is a whole number of milliseconds. *)
Definition aligned o : Prop :=
  forall s swm, tsdb o !! s = Some swm ->
    Latest swm mod time.Millisecond = 0.

(** The milliseconds of [t] since the epoch fit an [int64], so that
    [time.UnixMilli] does not wrap around (about 292 million years on
    either side of 1970). *)
Definition inMilliRange (t : time.Time) : Prop :=
  - 2 ^ 63 <= t / 1000000 < 2 ^ 63.

(** The panics of [newSeriesWithMeasure]. *)
Definition factoryPanic (p : PanicValue) : Prop :=
  match p with
  | PanicUnsupportedType _ | PanicError _ => True
  | _ => False
  end.

(** [newSeriesWithMeasure] builds a sink for the series: its kind is one of
    the four, and for a classic trend [newExtendedTrendSink] accepts the
    table. *)
Definition buildable o s : Prop :=
  recognized (metrics.Type_ (metrics.Metric_ s)) /\
  (metrics.Type_ (metrics.Metric_ s) = metrics.Trend ->
   TrendAsNativeHistogram (config o) = false ->
   extendedTrendSinkError (trendStatsResolver o) = None).

End vocabulary.

(** * A concrete setting

    The properties below hold for every collaborator.  The examples
    run the output with a small table of trend statistics in the manner of
    k6's, a list as native histogram, labels made of the tags and of the
    name, a configuration step that refuses an empty URL, and maps ranged
    over in the order of their keys. *)

Module demo.

Definition digit (c : ascii) : option Z :=
  let n := Z.of_nat (nat_of_ascii c) in
  if (48 <=? n) && (n <=? 57) then Some (n - 48) else None.

(** A decimal numeral, as the fraction [num / den]. *)
Fixpoint parseDecimal (s : string) (num den : Z) (dot : bool) :
  option (Z * Z) :=
  match s with
  | EmptyString => Some (num, den)
  | String c s' =>
      if Ascii.eqb c "." then
        if dot then None
        else match s' with
             | EmptyString => None
             | _ => parseDecimal s' num den true
             end
      else match digit c with
           | None => None
           | Some d =>
               parseDecimal s' (10 * num + d) (if dot then 10 * den else den)
                            dot
           end
  end.

(** The fraction of a name p(x), for a decimal x from 0 to 100. *)
Definition parsePercentile (stat : string) : option (Z * Z) :=
  let n := String.length stat in
  if String.prefix "p(" stat && (3 <? n)%nat
     && String.eqb (String.substring (n - 1) 1 stat) ")"
  then
    match String.substring 2 (n - 3) stat with
    | String "." _ => None
    | body =>
        match parseDecimal body 0 1 false with
        | Some (num, den) =>
            if num <=? 100 * den then Some (num, den) else None
        | None => None
        end
    end
  else None.

Fixpoint insertSorted (v : float) (l : list float) : list float :=
  match l with
  | [] => [v]
  | x :: l' => if PrimFloat.leb v x then v :: l else x :: insertSorted v l'
  end.

Definition sorted (l : list float) : list float :=
  fold_right insertSorted [] l.

(** The value at the rank [num / den * (n - 1) / 100] of the sorted
    observations, between its two neighbours. *)
Definition percentile (num den : Z) (t : metrics.TrendSink) : float :=
  let l := sorted (metrics.Values t) in
  match l with
  | [] => PrimFloat.zero
  | [v] => v
  | _ =>
      let n := Z.of_nat (length l) in
      let i := num * (n - 1) in
      let d := 100 * den in
      let j := nth (Z.to_nat (i / d)) l PrimFloat.zero in
      let k := nth (Z.to_nat (i / d + (if i mod d =? 0 then 0 else 1))) l
                   PrimFloat.zero in
      let f := PrimFloat.div (float64_of_int64 (i mod d)) (float64_of_int64 d) in
      PrimFloat.add j (PrimFloat.mul (PrimFloat.sub k j) f)
  end.

Definition count (t : metrics.TrendSink) : float :=
  float64_of_int64 (Z.of_nat (length (metrics.Values t))).

Definition column (stat : string) : result Resolver :=
  if String.eqb stat "avg" then
    Ok (fun t => PrimFloat.div (metrics.Sum t) (count t))
  else if String.eqb stat "min" then
    Ok (fun t => hd PrimFloat.zero (sorted (metrics.Values t)))
  else if String.eqb stat "max" then
    Ok (fun t => last (sorted (metrics.Values t)) PrimFloat.zero)
  else if String.eqb stat "med" then Ok (percentile 50 1)
  else if String.eqb stat "count" then Ok count
  else match parsePercentile stat with
       | Some (num, den) => Ok (percentile num den)
       | None => Err ("invalid trend stat '" ++ stat ++ "', unknown format")
       end.

Definition labels (series : metrics.TimeSeries) (suffix : string) :
  list prompb.Label :=
  (map (fun '(k, v) => prompb.mkLabel k v) (metrics.Tags series)
   ++ [ prompb.mkLabel "__name__"
          ("k6_" ++ metrics.Name (metrics.Metric_ series)
           ++ (if String.eqb suffix "" then "" else "_" ++ suffix)) ])%list.

#[export] Instance k6 : Collaborators := {|
  columnResolver := column;
  extendedTrendSinkError := fun tsr =>
    if (size tsr <? 1)%nat then Some "trend stats resolver is empty" else None;
  NativeHistogram := list float;
  NewHistogram := fun _ => [];
  Observe := fun h v => (h ++ [v])%list;
  MapSeries := labels;
  Params := Config;
  ClientConfig := unit;
  WriteClient := unit;
  GetConsolidatedConfig := fun c =>
    if String.eqb (URL c) "" then Err "url is required" else Ok c;
  RemoteConfig := fun _ => Ok tt;
  NewWriteClient := fun _ _ => Ok tt
|}.

#[export] Instance keyOrder : MapRange := {|
  rangeSeen := elements;
  rangeSeen_perm := fun X => reflexivity (elements X);
  rangeResolvers := map_to_list;
  rangeResolvers_perm := fun m => reflexivity (map_to_list m)
|}.

Definition cfg (stats : list string) (native : bool) : Config :=
  {| URL := "http://localhost:9090/api/v1/write";
     PushInterval := 5000000000;
     TrendStats := stats;
     TrendAsNativeHistogram := native |}.

Definition series (name : string) (ty : metrics.MetricType) :
  metrics.TimeSeries :=
  {| metrics.Metric_ := {| metrics.Name := name; metrics.Type_ := ty |};
     metrics.Tags := [("scenario", "default")] |}.

Definition sample (s : metrics.TimeSeries) (t : time.Time) (v : float) :
  metrics.Sample :=
  {| metrics.Series := s; metrics.Time := t; metrics.Value := v |}.

Definition started (stats : list string) (native : bool) : Output :=
  match New (cfg stats native) with
  | Done (Ok o) => o
  | _ => {| config := cfg stats native; tsdb := ∅;
            trendStatsResolver := ∅; client := tt |}
  end.

Definition env (containers : list metrics.SampleContainer)
  (d : time.Duration) (answer : option error) : FlushEnv :=
  {| buffered := containers; elapsed := d; store := fun _ => answer |}.

(** *** Inputs of the examples *)

Definition http_reqs : metrics.TimeSeries := series "http_reqs" metrics.Counter.
Definition vus : metrics.TimeSeries := series "vus" metrics.Gauge.
Definition checks : metrics.TimeSeries := series "checks" metrics.Rate.
Definition odd : metrics.TimeSeries := series "odd" 7.

(** An output built by [New] with two trend statistics. *)
Definition o0 : Output := started ["count"; "sum"] false.

(** Three requests in the first millisecond. *)
Definition first_batch : list metrics.SampleContainer :=
  [ [ sample http_reqs 1000000 1%float; sample http_reqs 1200000 2%float ];
    [ sample http_reqs 1900000 3%float ] ].

(** The output after the first batch was flushed. *)
Definition o1 : Output := after (flush (env first_batch 1000 None) o0).

(** The transport answers the first batch with an error. *)
Definition failing : FlushEnv :=
  env first_batch 1000 (Some "server returned HTTP status 500").

Definition first_wire : list PbSeries :=
  [ {| prompb.Labels := labels http_reqs "";
       prompb.Samples := [ {| prompb.Value := 6%float; prompb.Timestamp := 1 |} ];
       prompb.Histograms := [] |} ].

(** C10 at a list with two percentiles. *)
Definition requested_stats : list string := ["p(95)"; "p(0.95)"; "avg"; "sum"].



(** Two passed checks in the first window, one failed in the second. *)
Definition checks_run : list FlushEnv :=
  [ env [ [ sample checks 1000000 1%float; sample checks 1200000 1%float ] ]
        1000 None;
    env [ [ sample checks 2000000 0%float ] ] 1000 None ].

(** C4, as amended, at a counter over three ticks, the second one with an
    empty buffer. *)
Definition counter_run : list FlushEnv :=
  [ env first_batch 1000 None;
    env [] 1000 None;
    env [ [ sample http_reqs 3000000 4%float ] ] 1000 None ].

(** A fourth request, in the third millisecond. *)
Definition later_batch : list metrics.SampleContainer :=
  [ [ sample http_reqs 3000000 4%float ] ].

(** The output after the first batch and then the later one. *)
Definition o2 : Output := after (flush (env later_batch 1000 None) o1).

(** Two values of a gauge, the later one first. *)
Definition unordered_batch : list metrics.SampleContainer :=
  [ [ sample vus 5000000 10%float; sample vus 2000000 7%float ] ].

(** Two containers without a sample. *)
Definition hollow_batch : list metrics.SampleContainer := [ []; [] ].

(** A request in the first millisecond, one in the fourth, and one that
    falls back into the second. *)
Definition creating_sample : metrics.Sample := sample http_reqs 1200000 2%float.
Definition advancing_sample : metrics.Sample := sample http_reqs 3400000 4%float.
Definition stale_sample : metrics.Sample := sample http_reqs 1700000 4%float.

(** A request [2^63] milliseconds after the epoch, the first instant whose
    millisecond count no longer fits an [int64]. *)
Definition far_batch : list metrics.SampleContainer :=
  [ [ sample http_reqs (2 ^ 63 * 1000000) 1%float ] ].

End demo.

(** * Properties *)

Section aggregation_facts.

Context {collab : Collaborators} {order : MapRange}.

Implicit Types (o : Output) (seen : gset metrics.TimeSeries)
  (sample : metrics.Sample) (swm : seriesWithMeasure)
  (s : metrics.TimeSeries).

Lemma newSeriesWithMeasure_done series native tsr swm :
  newSeriesWithMeasure series native tsr = Done swm ->
  TimeSeries swm = series /\ Latest swm = time.zero /\
  sinkFor series native tsr (Measure swm).
Proof.
  unfold newSeriesWithMeasure, sinkFor, newExtendedTrendSink,
    newNativeHistogramSink.
  destruct (Z.eqb_spec (metrics.Type_ (metrics.Metric_ series)) metrics.Counter)
    as [e0|n0].
  { intros [= <-]; simpl; naive_solver. }
  destruct (Z.eqb_spec (metrics.Type_ (metrics.Metric_ series)) metrics.Gauge)
    as [e1|n1].
  { intros [= <-]; simpl; naive_solver. }
  destruct (Z.eqb_spec (metrics.Type_ (metrics.Metric_ series)) metrics.Trend)
    as [e2|n2].
  { destruct native.
    - intros [= <-]; simpl. do 2 (split; [reflexivity|]). do 3 right. left. auto.
    - destruct (extendedTrendSinkError tsr); [discriminate|].
      intros [= <-]; simpl. do 2 (split; [reflexivity|]). do 4 right. auto. }
  destruct (Z.eqb_spec (metrics.Type_ (metrics.Metric_ series)) metrics.Rate)
    as [e3|n3].
  { intros [= <-]; simpl. do 2 (split; [reflexivity|]). do 2 right. left. auto. }
  discriminate.
Qed.

(** A buildable series gets a state. *)
Lemma newSeriesWithMeasure_buildable o s :
  buildable o s ->
  exists swm,
    newSeriesWithMeasure s (TrendAsNativeHistogram (config o))
      (trendStatsResolver o) = Done swm.
Proof.
  intros [Hrec Htrend]. unfold newSeriesWithMeasure, newExtendedTrendSink.
  destruct (Z.eqb_spec (metrics.Type_ (metrics.Metric_ s)) metrics.Counter);
    [by eexists|].
  destruct (Z.eqb_spec (metrics.Type_ (metrics.Metric_ s)) metrics.Gauge);
    [by eexists|].
  destruct (Z.eqb_spec (metrics.Type_ (metrics.Metric_ s)) metrics.Trend)
    as [Hty|].
  { destruct (TrendAsNativeHistogram (config o)) eqn:Hnat; [by eexists|].
    rewrite (Htrend Hty eq_refl). by eexists. }
  destruct (Z.eqb_spec (metrics.Type_ (metrics.Metric_ s)) metrics.Rate);
    [by eexists|].
  exfalso. unfold recognized in Hrec. tauto.
Qed.

Lemma After_true (t u : time.Time) : time.After t u = true <-> u < t.
Proof. unfold time.After. apply Z.ltb_lt. Qed.

Lemma After_false (t u : time.Time) : time.After t u = false <-> t <= u.
Proof. unfold time.After. apply Z.ltb_ge. Qed.

(** [addSample] on a series of the table. *)
Lemma addSample_present seen sample o swm :
  tsdb o !! metrics.Series sample = Some swm ->
  addSample seen sample o =
  (Done (if time.After (truncTimeOf sample) (Latest swm)
         then {[ metrics.Series sample ]} ∪ seen else seen),
   setTsdb o
     (<[ metrics.Series sample :=
           {| TimeSeries := TimeSeries swm;
              Measure := Sink_Add (Measure swm) sample;
              Latest := if time.After (truncTimeOf sample) (Latest swm)
                        then truncTimeOf sample else Latest swm |} ]>
        (tsdb o))).
Proof.
  intros Hl. unfold addSample, bind, get, lift, ret, modify, truncTimeOf.
  rewrite Hl. by destruct (time.After _ _).
Qed.

(** [addSample] on a series the table does not hold. *)
Lemma addSample_absent seen sample o :
  tsdb o !! metrics.Series sample = None ->
  addSample seen sample o =
  match newSeriesWithMeasure (metrics.Series sample)
          (TrendAsNativeHistogram (config o)) (trendStatsResolver o) with
  | Done swm0 =>
      (Done ({[ metrics.Series sample ]} ∪ seen),
       setTsdb o
         (<[ metrics.Series sample :=
               {| TimeSeries := TimeSeries swm0;
                  Measure := Sink_Add (Measure swm0) sample;
                  Latest := truncTimeOf sample |} ]>
            (tsdb o)))
  | Panicked p => (Panicked p, o)
  end.
Proof.
  intros Hl. unfold addSample, bind, get, lift, ret, modify, truncTimeOf.
  rewrite Hl. by destruct (newSeriesWithMeasure _ _ _).
Qed.

(** ** The per-sample step *)

(** C1. Every sample is handled by the per-sample step as follows.  When
    the table holds no state for the sample's series and the series is
    buildable (its kind is counter, gauge, rate or trend, and for a classic
    trend the statistics table is accepted), a state is created: the factory
    returns one, its sink is the fresh sink of the series' kind, the stored
    sink is that sink with the sample added, the latest time is the sample's
    time truncated to the millisecond, and the series is marked.  The step
    panics only when the series is not buildable, and then leaves the table
    as it was.  When the table holds a state, a truncated time strictly
    after the stored latest replaces it and marks the series, and an equal
    or earlier one leaves both the latest and the marks as they were.  In
    every case the stored sink is the previous (or the fresh) sink with the
    sample added. *)
Theorem addSample_follows_algorithm seen sample o :
  let series := metrics.Series sample in
  let truncTime := time.Truncate (metrics.Time sample) time.Millisecond in
  match tsdb o !! series with
  | None =>
      (buildable o series ->
       exists sink o',
         sinkFor series (TrendAsNativeHistogram (config o))
           (trendStatsResolver o) sink /\
         newSeriesWithMeasure series (TrendAsNativeHistogram (config o))
           (trendStatsResolver o) =
           Done {| TimeSeries := series; Measure := sink;
                   Latest := time.zero |} /\
         addSample seen sample o = (Done ({[ series ]} ∪ seen), o') /\
         tsdb o' !! series =
           Some {| TimeSeries := series;
                   Measure := Sink_Add sink sample;
                   Latest := truncTime |} /\
         (forall s, s <> series -> tsdb o' !! s = tsdb o !! s)) /\
      match newSeriesWithMeasure series (TrendAsNativeHistogram (config o))
              (trendStatsResolver o) with
      | Done swm0 =>
          sinkFor series (TrendAsNativeHistogram (config o))
            (trendStatsResolver o) (Measure swm0) /\
          exists o',
            addSample seen sample o = (Done ({[ series ]} ∪ seen), o') /\
            tsdb o' !! series =
              Some {| TimeSeries := series;
                      Measure := Sink_Add (Measure swm0) sample;
                      Latest := truncTime |} /\
            series ∈ {[ series ]} ∪ seen
      | Panicked p =>
          addSample seen sample o = (Panicked p, o) /\
          ~ buildable o series
      end
  | Some swm =>
      exists seen' o' swm',
        addSample seen sample o = (Done seen', o') /\
        tsdb o' !! series = Some swm' /\
        Measure swm' = Sink_Add (Measure swm) sample /\
        (Latest swm < truncTime ->
         Latest swm' = truncTime /\ seen' = {[ series ]} ∪ seen) /\
        (truncTime <= Latest swm ->
         Latest swm' = Latest swm /\ seen' = seen)
  end.
Proof.
  intros series truncTime.
  destruct (tsdb o !! series) as [swm|] eqn:Hl.
  - rewrite (addSample_present _ _ _ _ Hl). fold series.
    change (truncTimeOf sample) with truncTime.
    eexists _, _, _. split; [reflexivity|]. simpl.
    split; [apply lookup_insert_eq|]. simpl. split; [reflexivity|].
    split; intros Hcmp.
    + apply After_true in Hcmp. by rewrite Hcmp.
    + apply After_false in Hcmp. by rewrite Hcmp.
  - rewrite (addSample_absent _ _ _ Hl). fold series.
    change (truncTimeOf sample) with truncTime. split.
    + intros Hb.
      destruct (newSeriesWithMeasure_buildable _ _ Hb) as (swm0 & Hn).
      rewrite Hn.
      destruct (newSeriesWithMeasure_done _ _ _ _ Hn) as (Hts & Hz & Hsink).
      exists (Measure swm0). eexists. split; [exact Hsink|].
      split; [destruct swm0; simpl in *; by subst|].
      split; [reflexivity|]. simpl. rewrite Hts.
      split; [apply lookup_insert_eq|].
      intros s Hne. by apply lookup_insert_ne.
    + destruct (newSeriesWithMeasure series _ _) as [swm0|p] eqn:Hn.
      * destruct (newSeriesWithMeasure_done _ _ _ _ Hn) as (Hts & _ & Hsink).
        split; [exact Hsink|]. eexists. split; [reflexivity|]. simpl.
        rewrite Hts. split; [apply lookup_insert_eq|]. set_solver.
      * split; [reflexivity|]. intros Hb.
        destruct (newSeriesWithMeasure_buildable _ _ Hb) as (swm0 & Hn').
        congruence.
Qed.

(** ** The latest time of a series never decreases *)

#[local] Instance latest_le_refl : Reflexive latest_le.
Proof. intros o s swm Hs. exists swm. split; [done|lia]. Qed.

#[local] Instance latest_le_trans : Transitive latest_le.
Proof.
  intros o1 o2 o3 H12 H23 s swm Hs.
  destruct (H12 _ _ Hs) as (swm2 & Hs2 & Hle2).
  destruct (H23 _ _ Hs2) as (swm3 & Hs3 & Hle3).
  exists swm3. split; [done|lia].
Qed.

(** A relation that every step of a loop respects is respected by the
    loop, whether it ends or panics. *)
Lemma foldM_preserves {A B} (f : B -> A -> M B) (R : relation Output)
  `{!Reflexive R} `{!Transitive R} :
  (forall b a o, R o (f b a o).2) ->
  forall l b o, R o (foldM f b l o).2.
Proof.
  intros Hstep l. induction l as [|a l IH]; intros b o; simpl.
  - reflexivity.
  - unfold bind. pose proof (Hstep b a o) as Ha.
    destruct (f b a o) as [[b'|p] o1]; simpl in *.
    + etransitivity; [exact Ha|apply IH].
    + exact Ha.
Qed.

Lemma addSample_latest_le seen sample o :
  latest_le o (addSample seen sample o).2.
Proof.
  destruct (tsdb o !! metrics.Series sample) as [swm|] eqn:Hl.
  - rewrite (addSample_present _ _ _ _ Hl). intros s swm1 Hs. simpl.
    destruct (decide (s = metrics.Series sample)) as [->|Hne].
    + rewrite lookup_insert_eq. eexists. split; [reflexivity|]. simpl.
      assert (swm1 = swm) as -> by congruence.
      destruct (time.After _ _) eqn:Ha; [apply After_true in Ha|]; lia.
    + rewrite lookup_insert_ne by done. exists swm1. split; [done|lia].
  - rewrite (addSample_absent _ _ _ Hl).
    destruct (newSeriesWithMeasure _ _ _); simpl; [|reflexivity].
    intros s swm1 Hs. simpl.
    destruct (decide (s = metrics.Series sample)) as [->|Hne];
      [congruence|].
    rewrite lookup_insert_ne by done. exists swm1. split; [done|lia].
Qed.

Lemma aggregate_latest_le containers o :
  latest_le o (aggregate containers o).2.
Proof.
  unfold aggregate. apply foldM_preserves; try apply _.
  intros seen c o1. apply foldM_preserves; try apply _.
  intros; apply addSample_latest_le.
Qed.

(** A loop whose steps leave the output alone leaves it alone. *)
Lemma foldM_pure {A B} (f : B -> A -> M B) :
  (forall b a o, (f b a o).2 = o) ->
  forall l b o, (foldM f b l o).2 = o.
Proof.
  intros Hstep l. induction l as [|a l IH]; intros b o; simpl; [done|].
  unfold bind. pose proof (Hstep b a o) as Ha.
  destruct (f b a o) as [[b'|p] o1]; simpl in *; subst; [apply IH|done].
Qed.

(** Encoding reads the table and leaves the output as it is. *)
Lemma encode_state seen o : (encode seen o).2 = o.
Proof.
  unfold encode. apply foldM_pure.
  intros pbseries s o1. unfold encodeSeries, bind, get, lift, ret.
  destruct (tsdb o1 !! s) as [swm|]; [|done]. by destruct (MapPrompb swm).
Qed.

Lemma convertToPbSeries_state containers o :
  (convertToPbSeries containers o).2 = (aggregate containers o).2.
Proof.
  unfold convertToPbSeries, bind.
  destruct (aggregate containers o) as [[seen|p] o1]; [|done].
  apply encode_state.
Qed.

Lemma flush_after env o :
  after (flush env o) =
  if (length (buffered env) <? 1)%nat then o
  else (aggregate (buffered env) o).2.
Proof.
  unfold flush. destruct (length (buffered env) <? 1)%nat; [done|].
  rewrite <- convertToPbSeries_state.
  destruct (convertToPbSeries (buffered env) o) as [[pb|p] o1]; [|done].
  by destruct (store env pb).
Qed.

Lemma flush_latest_le env o : latest_le o (after (flush env o)).
Proof.
  rewrite flush_after. destruct (length (buffered env) <? 1)%nat.
  - reflexivity.
  - apply aggregate_latest_le.
Qed.

(** Every result of a run is at or after the state the run started from,
    and the results are in order. *)
Lemma flushes_latest_le envs : forall o i j ri rj,
  (i <= j)%nat ->
  flushes envs o !! i = Some ri -> flushes envs o !! j = Some rj ->
  latest_le o (after ri) /\ latest_le (after ri) (after rj).
Proof.
  induction envs as [|env envs IH]; intros o i j ri rj Hij Hi Hj;
    [simpl in Hi; by rewrite lookup_nil in Hi|].
  simpl in Hi, Hj.
  assert (Hhead : forall k r,
    (match panicked (flush env o) with
     | Some _ => [flush env o]
     | None => flush env o :: flushes envs (after (flush env o))
     end) !! k = Some r ->
    (k = 0%nat /\ r = flush env o) \/
    (exists k', k = S k' /\
       flushes envs (after (flush env o)) !! k' = Some r)).
  { intros k r Hk. destruct (panicked (flush env o)).
    - destruct k as [|k]; simpl in Hk; [left; split; congruence|].
      by rewrite lookup_nil in Hk.
    - destruct k as [|k]; simpl in Hk; [left; split; congruence|].
      right. by exists k. }
  destruct (Hhead _ _ Hi) as [[-> ->]|(i' & -> & Hi')];
    destruct (Hhead _ _ Hj) as [[-> ->]|(j' & -> & Hj')]; try lia.
  - split; [apply flush_latest_le|reflexivity].
  - split; [apply flush_latest_le|].
    destruct (IH _ j' j' rj rj (le_n _) Hj' Hj') as [H1 _]. exact H1.
  - assert (i' <= j')%nat as Hij' by lia.
    destruct (IH _ _ _ _ _ Hij' Hi' Hj') as [H1 H2].
    split; [|exact H2]. etransitivity; [apply flush_latest_le|exact H1].
Qed.

(** C3. The latest truncated time stored for a series never decreases.
    One sample leaves it at the larger of the stored time and the sample's
    truncated time, so that an equal or earlier sample leaves it unchanged;
    hence no batch of containers, and no run of flushes, ever lowers it:
    each series of an earlier state is in every later state with a latest
    time at least as large, also when the processing stops on a panic. *)
Theorem latest_never_decreases :
  (forall seen sample o swm,
     tsdb o !! metrics.Series sample = Some swm ->
     exists swm',
       tsdb (addSample seen sample o).2 !! metrics.Series sample = Some swm' /\
       Latest swm' =
         Z.max (Latest swm)
           (time.Truncate (metrics.Time sample) time.Millisecond)) /\
  (forall containers o, latest_le o (convertToPbSeries containers o).2) /\
  (forall envs o i j ri rj,
     (i <= j)%nat ->
     flushes envs o !! i = Some ri -> flushes envs o !! j = Some rj ->
     latest_le o (after ri) /\ latest_le (after ri) (after rj)).
Proof.
  split; [|split].
  - intros seen sample o swm Hl.
    rewrite (addSample_present _ _ _ _ Hl). simpl.
    rewrite lookup_insert_eq. eexists. split; [reflexivity|]. simpl.
    unfold truncTimeOf.
    destruct (time.After _ _) eqn:Ha;
      [apply After_true in Ha|apply After_false in Ha]; lia.
  - intros containers o. rewrite convertToPbSeries_state.
    apply aggregate_latest_le.
  - apply flushes_latest_le.
Qed.

(** ** Loop invariants *)

(** An invariant of the accumulator and the output that every step over an
    element of the list keeps is kept by the loop when it ends. *)
Lemma foldM_invariant {A B} (f : B -> A -> M B) (I : B -> Output -> Prop)
  (l : list A) :
  (forall a b o b' o',
     a ∈ l -> I b o -> f b a o = (Done b', o') -> I b' o') ->
  forall b o b' o',
    I b o -> foldM f b l o = (Done b', o') -> I b' o'.
Proof.
  induction l as [|a l IH]; intros Hstep b o b' o' Hb Hrun; simpl in Hrun.
  - unfold ret in Hrun. by simplify_eq.
  - unfold bind in Hrun.
    destruct (f b a o) as [[b1|p] o1] eqn:Hf; [|done].
    eapply IH; [|eapply Hstep; [by left|exact Hb|exact Hf]|exact Hrun].
    intros a' b2 o2 b3 o3 Ha'. apply Hstep. by right.
Qed.

(** The same for the two nested loops of [aggregate]. *)
Lemma aggregate_invariant (I : gset metrics.TimeSeries -> Output -> Prop)
  (containers : list metrics.SampleContainer) :
  (forall c sample seen o seen' o',
     c ∈ containers -> sample ∈ c -> I seen o ->
     addSample seen sample o = (Done seen', o') -> I seen' o') ->
  forall o seen' o',
    I ∅ o -> aggregate containers o = (Done seen', o') -> I seen' o'.
Proof.
  intros Hstep o seen' o' H0 Hrun. unfold aggregate in Hrun.
  eapply (foldM_invariant _ I containers); [|exact H0|exact Hrun].
  intros c seen1 o1 seen2 o2 Hc H1 Hinner.
  eapply (foldM_invariant _ I (metrics.GetSamples c)); [|exact H1|exact Hinner].
  intros sample seen3 o3 seen4 o4 Hs H3 Hadd. by eapply Hstep.
Qed.

(** What one step does to the marks and to the other series. *)
Lemma addSample_done seen sample o seen' o' :
  addSample seen sample o = (Done seen', o') ->
  seen ⊆ seen' /\ seen' ⊆ {[ metrics.Series sample ]} ∪ seen /\
  is_Some (tsdb o' !! metrics.Series sample) /\
  (forall s, s ≠ metrics.Series sample -> tsdb o' !! s = tsdb o !! s).
Proof.
  destruct (tsdb o !! metrics.Series sample) as [swm|] eqn:Hl.
  - rewrite (addSample_present _ _ _ _ Hl). intros [= <- <-]. simpl.
    rewrite lookup_insert_eq. split_and!; [| |by eexists|].
    + destruct (time.After _ _); set_solver.
    + destruct (time.After _ _); set_solver.
    + intros s Hs. by rewrite lookup_insert_ne.
  - rewrite (addSample_absent _ _ _ Hl).
    destruct (newSeriesWithMeasure _ _ _); [|done].
    intros [= <- <-]. simpl. rewrite lookup_insert_eq.
    split_and!; [set_solver|set_solver|by eexists|].
    intros s Hs. by rewrite lookup_insert_ne.
Qed.

(** Every marked series is in the table. *)
Lemma aggregate_seen_in_table containers o seen o' :
  aggregate containers o = (Done seen, o') ->
  forall s, s ∈ seen -> is_Some (tsdb o' !! s).
Proof.
  intros Hrun.
  refine (aggregate_invariant
            (fun seen o => forall s, s ∈ seen -> is_Some (tsdb o !! s))
            containers _ o seen o' _ Hrun); [|intros s; set_solver].
  intros c sample seen1 o1 seen2 o2 _ _ Hinv Hadd s Hs.
  destruct (addSample_done _ _ _ _ _ Hadd) as (_ & Hsub & Hsome & Hother).
  destruct (decide (s = metrics.Series sample)) as [->|Hne]; [done|].
  rewrite Hother by done. apply Hinv. set_solver.
Qed.

(** A series is marked only by one of its own samples. *)
Lemma aggregate_seen_has_sample containers o seen o' :
  aggregate containers o = (Done seen, o') ->
  forall s, s ∈ seen ->
    exists c sample, c ∈ containers /\ sample ∈ c /\ metrics.Series sample = s.
Proof.
  intros Hrun.
  refine (aggregate_invariant
            (fun seen _ => forall s, s ∈ seen ->
               exists c sample,
                 c ∈ containers /\ sample ∈ c /\ metrics.Series sample = s)
            containers _ o seen o' _ Hrun); [|intros s; set_solver].
  intros c sample seen1 o1 seen2 o2 Hc Hsample Hinv Hadd s Hs.
  destruct (addSample_done _ _ _ _ _ Hadd) as (_ & Hsub & _).
  destruct (decide (s = metrics.Series sample)) as [->|Hne].
  - by exists c, sample.
  - apply Hinv. set_solver.
Qed.

(** A series of the table none of whose samples is after its latest time
    is not marked, and keeps that latest time. *)
Lemma aggregate_not_advanced containers o seen o' s swm :
  tsdb o !! s = Some swm ->
  (forall c sample, c ∈ containers -> sample ∈ c ->
     metrics.Series sample = s -> truncTimeOf sample <= Latest swm) ->
  aggregate containers o = (Done seen, o') ->
  (s ∉ seen) /\
  (exists swm', tsdb o' !! s = Some swm' /\ Latest swm' = Latest swm).
Proof.
  intros Hs Hall Hrun.
  refine (aggregate_invariant
            (fun seen o =>
               (s ∉ seen) /\
               (exists swm', tsdb o !! s = Some swm' /\
                             Latest swm' = Latest swm))
            containers _ o seen o' _ Hrun);
    [|split; [set_solver|by exists swm]].
  intros c sample seen1 o1 seen2 o2 Hc Hsample (Hnot & swm1 & Hs1 & HL) Hadd.
  destruct (decide (metrics.Series sample = s)) as [<-|Hne].
  - rewrite (addSample_present _ _ _ _ Hs1) in Hadd.
    pose proof (Hall _ _ Hc Hsample eq_refl) as Hle.
    rewrite <- HL in Hle. apply After_false in Hle. rewrite Hle in Hadd.
    injection Hadd as <- <-. split; [done|]. simpl.
    rewrite lookup_insert_eq. by eexists.
  - destruct (addSample_done _ _ _ _ _ Hadd) as (_ & Hsub & _ & Hother).
    split; [set_solver|]. exists swm1. by rewrite Hother.
Qed.

End aggregation_facts.

Section flush_facts.

Context {collab : Collaborators} {order : MapRange}.

Implicit Types (o : Output) (env : FlushEnv) (seen : gset metrics.TimeSeries)
  (sample : metrics.Sample) (s : metrics.TimeSeries).

#[local] Instance same_settings_refl : Reflexive same_settings.
Proof. by intros o. Qed.

#[local] Instance same_settings_trans : Transitive same_settings.
Proof. intros o1 o2 o3 (?&?&?) (?&?&?). repeat split; congruence. Qed.

Lemma addSample_settings seen sample o :
  same_settings o (addSample seen sample o).2.
Proof.
  destruct (tsdb o !! metrics.Series sample) as [swm|] eqn:Hl.
  - by rewrite (addSample_present _ _ _ _ Hl).
  - rewrite (addSample_absent _ _ _ Hl).
    by destruct (newSeriesWithMeasure _ _ _).
Qed.

Lemma aggregate_settings containers o :
  same_settings o (aggregate containers o).2.
Proof.
  unfold aggregate. apply foldM_preserves; try apply _.
  intros seen c o1. apply foldM_preserves; try apply _.
  intros; apply addSample_settings.
Qed.

Lemma flush_config env o : config (after (flush env o)) = config o.
Proof.
  rewrite flush_after. destruct (length (buffered env) <? 1)%nat; [done|].
  apply aggregate_settings.
Qed.

Lemma flushDeferred_warning o d nts :
  isWarning (flushDeferred o d nts) = (PushInterval (config o) <? d).
Proof. unfold flushDeferred. by destruct (_ <? _). Qed.

Lemma flushDeferred_other o d nts :
  isStore (flushDeferred o d nts) = false /\
  isErrorLog (flushDeferred o d nts) = false.
Proof. unfold flushDeferred. by destruct (_ <? _). Qed.

(** The trace of a flush ends with the event of the deferred function,
    and nothing before it is a warning. *)
Lemma flush_trace_shape env o :
  exists body nts,
    trace (flush env o) =
      (body ++ [flushDeferred (after (flush env o)) (elapsed env) nts])%list /\
    forallb (fun e => negb (isWarning e)) body = true.
Proof.
  unfold flush. destruct (length (buffered env) <? 1)%nat.
  { by exists [DebugNoSamples], 0%nat. }
  destruct (convertToPbSeries (buffered env) o) as [[pb|p] o1].
  - destruct (store env pb) as [err|].
    + by exists [DebugConverted (length pb); Store pb; ErrorStore err],
        (length pb).
    + by exists [DebugConverted (length pb); Store pb], (length pb).
  - by exists [], 0%nat.
Qed.

(** C9. A flush whose measured duration exceeds the configured interval
    emits the slow-flush warning, once, with that duration and interval; a
    flush whose duration does not exceed the interval emits no warning.
    This holds for every flush: with an empty buffer, with a failed
    delivery, and when the conversion panics. *)
Theorem flush_warns_iff_slow env o :
  length (List.filter isWarning (trace (flush env o))) =
    (if PushInterval (config o) <? elapsed env then 1%nat else 0%nat) /\
  ((exists nts,
      WarnSlow nts (elapsed env) (PushInterval (config o))
        ∈ trace (flush env o)) <->
   PushInterval (config o) < elapsed env) /\
  ((exists e, e ∈ trace (flush env o) /\ isWarning e = true) <->
   PushInterval (config o) < elapsed env).
Proof.
  destruct (flush_trace_shape env o) as (body & nts & Htr & Hbody).
  pose proof (flush_config env o) as Hcfg.
  pose proof (flushDeferred_warning (after (flush env o)) (elapsed env) nts)
    as Hw.
  rewrite Hcfg in Hw. rewrite Htr.
  assert (Hnone : forall e, e ∈ body -> isWarning e = false).
  { intros e He. rewrite forallb_forall in Hbody.
    apply list_elem_of_In in He. apply Hbody in He.
    by destruct (isWarning e). }
  assert (Hfilter : List.filter isWarning body = []).
  { clear -Hnone. induction body as [|e body IH]; [done|].
    simpl. rewrite (Hnone e) by left.
    apply IH. intros e' He'. apply Hnone. by right. }
  split; [|split].
  - rewrite List.filter_app, Hfilter. simpl. rewrite Hw.
    by destruct (PushInterval (config o) <? elapsed env).
  - split.
    + intros (n & Hin). apply elem_of_app in Hin as [Hin|Hin].
      * apply Hnone in Hin. discriminate.
      * apply list_elem_of_singleton in Hin.
        assert (isWarning (flushDeferred (after (flush env o)) (elapsed env) nts)
                = true) as Hd by (by rewrite <- Hin).
        rewrite Hw in Hd. by apply Z.ltb_lt.
    + intros Hlt. exists nts. apply elem_of_app. right.
      apply list_elem_of_singleton. unfold flushDeferred. rewrite Hcfg.
      apply Z.ltb_lt in Hlt. by rewrite Hlt.
  - split.
    + intros (e & Hin & He). apply elem_of_app in Hin as [Hin|Hin].
      * apply Hnone in Hin. congruence.
      * apply list_elem_of_singleton in Hin. subst e.
        rewrite Hw in He. by apply Z.ltb_lt.
    + intros Hlt. eexists. split.
      * apply elem_of_app. right. by apply list_elem_of_singleton.
      * rewrite Hw. by apply Z.ltb_lt.
Qed.

(** ** An empty buffer *)

Lemma rangeSeen_empty : rangeSeen ∅ = [].
Proof.
  apply Permutation_nil_r. rewrite rangeSeen_perm. by rewrite elements_empty.
Qed.

(** C5. A flush that drains no sample container calls the transport not
    at all, leaves the output (and so the series table) as it was, does not
    panic, and marks nothing: it logs that it skips, and then the deferred
    function logs; converting no container would mark no series and encode
    no wire series either. *)
Theorem flush_empty_buffer env o :
  buffered env = [] ->
  after (flush env o) = o /\
  tsdb (after (flush env o)) = tsdb o /\
  panicked (flush env o) = None /\
  trace (flush env o) = [DebugNoSamples; flushDeferred o (elapsed env) 0] /\
  (forall batch, Store batch ∉ trace (flush env o)) /\
  aggregate (buffered env) o = (Done ∅, o) /\
  convertToPbSeries (buffered env) o = (Done [], o).
Proof.
  intros Hb.
  assert (Htrace : trace (flush env o)
                   = [DebugNoSamples; flushDeferred o (elapsed env) 0]).
  { unfold flush. by rewrite Hb. }
  split_and!.
  - unfold flush. by rewrite Hb.
  - unfold flush. by rewrite Hb.
  - unfold flush. by rewrite Hb.
  - exact Htrace.
  - intros batch Hin. rewrite Htrace in Hin.
    apply elem_of_cons in Hin as [Hin|Hin]; [done|].
    apply list_elem_of_singleton in Hin.
    pose proof (proj1 (flushDeferred_other o (elapsed env) 0)) as Hd.
    by rewrite <- Hin in Hd.
  - by rewrite Hb.
  - rewrite Hb. unfold convertToPbSeries, bind, aggregate. simpl.
    unfold encode. by rewrite rangeSeen_empty.
Qed.

(** ** Unrecognized kinds *)

Lemma unrecognized_tests ty :
  ~ recognized ty ->
  (ty =? metrics.Counter) = false /\ (ty =? metrics.Gauge) = false /\
  (ty =? metrics.Trend) = false /\ (ty =? metrics.Rate) = false.
Proof.
  unfold recognized. intros Hn.
  split_and!; apply Z.eqb_neq; intros ->; apply Hn; auto.
Qed.

(** A batch that holds a sample of an unrecognized kind for a series the
    table does not hold never ends normally. *)
Lemma foldM_addSample_unrecognized samples : forall seen o sample,
  sample ∈ samples ->
  ~ recognized (metrics.Type_ (metrics.Metric_ (metrics.Series sample))) ->
  tsdb o !! metrics.Series sample = None ->
  exists p o', foldM addSample seen samples o = (Panicked p, o').
Proof.
  induction samples as [|x samples IH]; intros seen o sample Hin Hty Habs.
  { by apply elem_of_nil in Hin. }
  simpl. unfold bind.
  destruct (addSample seen x o) as [[seen1|p] o1] eqn:Hx; [|by eauto].
  destruct (decide (metrics.Series x = metrics.Series sample)) as [Heq|Hne].
  - exfalso. rewrite <- Heq in Habs, Hty.
    rewrite (addSample_absent _ _ _ Habs) in Hx.
    unfold newSeriesWithMeasure in Hx.
    destruct (unrecognized_tests _ Hty) as (-> & -> & -> & ->) in Hx.
    discriminate.
  - apply elem_of_cons in Hin as [->|Hin]; [done|].
    apply (IH seen1 o1 sample Hin Hty).
    destruct (addSample_done _ _ _ _ _ Hx) as (_ & _ & _ & Hother).
    rewrite Hother; [done|congruence].
Qed.

Lemma aggregate_unrecognized containers : forall o c sample,
  c ∈ containers -> sample ∈ c ->
  ~ recognized (metrics.Type_ (metrics.Metric_ (metrics.Series sample))) ->
  tsdb o !! metrics.Series sample = None ->
  exists p o', aggregate containers o = (Panicked p, o').
Proof.
  unfold aggregate. generalize (∅ : gset metrics.TimeSeries).
  induction containers as [|x containers IH];
    intros seen o c sample Hc Hin Hty Habs.
  { by apply elem_of_nil in Hc. }
  simpl. unfold bind.
  apply elem_of_cons in Hc as [->|Hc].
  - destruct (foldM_addSample_unrecognized (metrics.GetSamples x) seen o
                sample Hin Hty Habs) as (p & o' & ->). eauto.
  - destruct (foldM addSample seen (metrics.GetSamples x) o)
      as [[seen1|p] o1] eqn:Hx; [|by eauto].
    apply (IH seen1 o1 c sample Hc Hin Hty).
    destruct (tsdb o1 !! metrics.Series sample) as [swm1|] eqn:H1; [|done].
    exfalso.
    (* the series cannot have entered the table: its creation panics *)
    assert (Hkeep : forall samples seen0 o0 seen2 o2,
      tsdb o0 !! metrics.Series sample = None ->
      foldM addSample seen0 samples o0 = (Done seen2, o2) ->
      tsdb o2 !! metrics.Series sample = None).
    { clear -Hty. intros samples seen0 o0 seen2 o2 H0 Hrun.
      refine (foldM_invariant addSample
                (fun _ o => tsdb o !! metrics.Series sample = None)
                samples _ seen0 o0 seen2 o2 H0 Hrun).
      intros a b o b' o' _ Hnone Hadd.
      destruct (decide (metrics.Series a = metrics.Series sample)) as [Heq|Hne].
      - exfalso. rewrite <- Heq in Hnone, Hty.
        rewrite (addSample_absent _ _ _ Hnone) in Hadd.
        unfold newSeriesWithMeasure in Hadd.
        destruct (unrecognized_tests _ Hty) as (-> & -> & -> & ->) in Hadd.
        discriminate.
      - destruct (addSample_done _ _ _ _ _ Hadd) as (_ & _ & _ & Hother).
        rewrite Hother; [done|congruence]. }
    rewrite (Hkeep _ _ _ _ _ Habs Hx) in H1. discriminate.
Qed.

(** C7. A kind outside Counter, Gauge, Rate and Trend makes the sink
    factory panic and makes the encoder panic, whatever the other
    arguments are; neither returns an error value or an empty result.  A
    flush whose batch holds a sample of such a kind, for a series the table
    does not hold, ends in a panic without calling the transport. *)
Theorem unrecognized_kind_panics (ty : metrics.MetricType) :
  ty ≠ metrics.Counter -> ty ≠ metrics.Gauge ->
  ty ≠ metrics.Rate -> ty ≠ metrics.Trend ->
  (forall series native tsr,
     metrics.Type_ (metrics.Metric_ series) = ty ->
     newSeriesWithMeasure series native tsr
       = Panicked (PanicUnsupportedType ty)) /\
  (forall swm,
     metrics.Type_ (metrics.Metric_ (TimeSeries swm)) = ty ->
     MapPrompb swm
       = Panicked (PanicUnrecognizedType
                     (metrics.Name (metrics.Metric_ (TimeSeries swm))) ty)) /\
  (forall env o c sample,
     c ∈ buffered env -> sample ∈ c ->
     metrics.Type_ (metrics.Metric_ (metrics.Series sample)) = ty ->
     tsdb o !! metrics.Series sample = None ->
     is_Some (panicked (flush env o)) /\
     forall batch, Store batch ∉ trace (flush env o)).
Proof.
  intros H0 H1 H2 H3.
  assert (Hty : ~ recognized ty) by (unfold recognized; tauto).
  destruct (unrecognized_tests _ Hty) as (E0 & E1 & E2 & E3).
  split_and!.
  - intros series native tsr <-. unfold newSeriesWithMeasure.
    by rewrite E0, E1, E2, E3.
  - intros swm <-. unfold MapPrompb. by rewrite E0, E1, E3, E2.
  - intros env o c sample Hc Hin Hk Habs. rewrite <- Hk in Hty.
    destruct (aggregate_unrecognized _ _ _ _ Hc Hin Hty Habs)
      as (p & o' & Hagg).
    unfold flush.
    destruct (buffered env) as [|c0 cs] eqn:Hb; [by apply elem_of_nil in Hc|].
    simpl length. change (S (length cs) <? 1)%nat with false.
    unfold convertToPbSeries, bind. rewrite Hagg. simpl. split; [by eexists|].
    intros batch Hin'. apply list_elem_of_singleton in Hin'.
    pose proof (proj1 (flushDeferred_other o' (elapsed env) 0)) as Hd.
    by rewrite <- Hin' in Hd.
Qed.

(** ** A failed delivery *)

(** C8. When the transport reports a failure, the flush calls it once,
    logs the error, and returns without a panic; the output it leaves is
    the one the conversion produced, the same as after a successful
    delivery, so nothing of the batch is kept for a later attempt.  In the
    next flush a series of that table is marked again only if one of its
    samples has a truncated time after the stored latest time. *)
Theorem flush_store_failure env o pb o' err :
  buffered env ≠ [] ->
  convertToPbSeries (buffered env) o = (Done pb, o') ->
  store env pb = Some err ->
  trace (flush env o) =
    [DebugConverted (length pb); Store pb; ErrorStore err;
     flushDeferred o' (elapsed env) (length pb)] /\
  length (List.filter isStore (trace (flush env o))) = 1%nat /\
  panicked (flush env o) = None /\
  after (flush env o) = o' /\
  after (flush env o) =
    after (flush {| buffered := buffered env; elapsed := elapsed env;
                    store := fun _ => None |} o) /\
  (forall env2 s swm seen2 o2,
     tsdb (after (flush env o)) !! s = Some swm ->
     (forall c sample, c ∈ buffered env2 -> sample ∈ c ->
        metrics.Series sample = s ->
        time.Truncate (metrics.Time sample) time.Millisecond <= Latest swm) ->
     aggregate (buffered env2) (after (flush env o)) = (Done seen2, o2) ->
     s ∉ seen2).
Proof.
  intros Hb Hconv Hstore.
  assert (Hlen : (length (buffered env) <? 1)%nat = false).
  { destruct (buffered env); [done|reflexivity]. }
  assert (Htrace : trace (flush env o) =
    [DebugConverted (length pb); Store pb; ErrorStore err;
     flushDeferred o' (elapsed env) (length pb)]).
  { unfold flush. by rewrite Hlen, Hconv, Hstore. }
  assert (Hafter : after (flush env o) = o').
  { unfold flush. by rewrite Hlen, Hconv, Hstore. }
  split_and!.
  - exact Htrace.
  - rewrite Htrace. simpl.
    by rewrite (proj1 (flushDeferred_other o' (elapsed env) (length pb))).
  - unfold flush. by rewrite Hlen, Hconv, Hstore.
  - exact Hafter.
  - by rewrite !flush_after.
  - intros env2 s swm seen2 o2 Hs Hall Hagg.
    by destruct (aggregate_not_advanced _ _ _ _ _ _ Hs Hall Hagg).
Qed.

End flush_facts.

Section trend_stats_facts.

Context {collab : Collaborators} {order : MapRange}.

Implicit Types (o : Output) (stat k : string) (fn : Resolver).

(** *** Strings *)

Lemma substring_0_app (x y : string) :
  String.substring 0 (String.length x) (x ++ y) = x.
Proof. induction x as [|c x IH]; simpl; [by destruct y|by rewrite IH]. Qed.

Lemma length_app_string (x y : string) :
  String.length (x ++ y) = (String.length x + String.length y)%nat.
Proof. induction x as [|c x IH]; simpl; [done|by rewrite IH]. Qed.

Lemma statKeyOf_percentile (x : string) :
  statKeyOf ("p(" ++ x ++ ")") = Done ("p" ++ ReplaceAll_empty x "."%char).
Proof.
  unfold statKeyOf.
  change ("p(" ++ x ++ ")") with (String "p" (String "(" (x ++ ")"))).
  assert (Hp : String.prefix "p(" (String "p" (String "(" (x ++ ")"))) = true)
    by (simpl; by destruct (x ++ ")")).
  rewrite Hp.
  assert (Hlen : String.length (String "p" (String "(" (x ++ ")")))
                 = (String.length x + 3)%nat).
  { simpl. rewrite length_app_string. simpl. lia. }
  rewrite Hlen.
  replace (String.length x + 3 <? 3)%nat with false
    by (symmetry; apply Nat.ltb_ge; lia).
  replace (String.length x + 3 - 3)%nat with (String.length x) by lia.
  cbn [String.substring]. by rewrite substring_0_app.
Qed.


(** The slice panics for the two-byte name ["p("] only. *)
Lemma statKeyOf_total stat : stat ≠ "p(" -> exists k, statKeyOf stat = Done k.
Proof.
  intros Hne. unfold statKeyOf.
  destruct (String.prefix "p(" stat) eqn:Hp; [|by eexists].
  destruct (String.length stat <? 3)%nat eqn:Hlen; [|by eexists].
  exfalso. apply Hne. apply Nat.ltb_lt in Hlen.
  destruct stat as [|a [|b [|c r]]];
    cbn [String.prefix String.length] in Hp, Hlen; try discriminate; try lia.
  - by destruct (Ascii.ascii_dec "p" a).
  - destruct (Ascii.ascii_dec "p" a); [|discriminate].
    destruct (Ascii.ascii_dec "(" b); [|discriminate]. by subst.
Qed.

(** *** The copy without ["sum"] *)

Lemma copyExcludingSum_spec trendStats trendStatsCopy hasSum :
  copyExcludingSum trendStats = (trendStatsCopy, hasSum) ->
  (forall stat, stat ∈ trendStatsCopy <-> stat ∈ trendStats /\ stat ≠ "sum") /\
  (hasSum = true <-> "sum" ∈ trendStats).
Proof.
  unfold copyExcludingSum.
  assert (Hgen : forall l acc b,
    foldl (fun '(trendStatsCopy, hasSum) stat =>
             if String.eqb stat "sum" then (trendStatsCopy, true)
             else ((trendStatsCopy ++ [stat])%list, hasSum))
          (acc, b) l = (trendStatsCopy, hasSum) ->
    (forall stat, stat ∈ trendStatsCopy <->
                  stat ∈ acc \/ (stat ∈ l /\ stat ≠ "sum")) /\
    (hasSum = true <-> b = true \/ "sum" ∈ l)).
  { induction l as [|x l IH]; intros acc b Hf; simpl in Hf.
    - injection Hf as <- <-. split; intros; set_solver.
    - destruct (String.eqb_spec x "sum") as [->|Hx].
      + destruct (IH _ _ Hf) as [H1 H2]. split.
        * intros stat. rewrite H1. set_solver.
        * rewrite H2. set_solver.
      + destruct (IH _ _ Hf) as [H1 H2]. split.
        * intros stat. rewrite H1. rewrite elem_of_app, list_elem_of_singleton.
          rewrite elem_of_cons. naive_solver.
        * rewrite H2. rewrite elem_of_cons. naive_solver. }
  intros Hf. destruct (Hgen _ _ _ Hf) as [H1 H2]. split.
  - intros stat. rewrite H1. set_solver.
  - rewrite H2. naive_solver.
Qed.

(** *** The table of the library *)

Lemma resolveColumns_ok cols : forall acc m,
  resolveColumns cols acc = Ok m ->
  (forall stat, stat ∈ cols -> exists fn, columnResolver stat = Ok fn) /\
  (forall k fn, m !! k = Some fn <->
     (k ∈ cols /\ columnResolver k = Ok fn) \/
     ((k ∉ cols) /\ acc !! k = Some fn)).
Proof.
  induction cols as [|x cols IH]; intros acc m Hr; simpl in Hr.
  - injection Hr as <-. split; [set_solver|]. intros k fn. set_solver.
  - destruct (columnResolver x) as [fx|e] eqn:Hx; [|done].
    destruct (IH _ _ Hr) as [H1 H2]. split.
    + intros stat [->|Hin]%elem_of_cons; [by eexists|by apply H1].
    + intros k fn. rewrite H2. destruct (decide (k = x)) as [->|Hne].
      * rewrite lookup_insert_eq. split.
        -- intros [[Hin Hk]|[Hnin Hk]].
           ++ left. split; [by right|done].
           ++ injection Hk as <-. left. split; [by left|done].
        -- intros [[_ Hk]|[Hnin _]].
           ++ assert (fn = fx) as -> by congruence.
              destruct (decide (x ∈ cols)); [by left|by right].
           ++ exfalso. apply Hnin. by left.
      * rewrite lookup_insert_ne by done. split.
        -- intros [[Hin Hk]|[Hnin Hk]].
           ++ left. split; [by right|done].
           ++ right. split; [|done].
              intros [?|?]%elem_of_cons; done.
        -- intros [[Hin Hk]|[Hnin Hk]].
           ++ apply elem_of_cons in Hin as [?|Hin]; [done|by left].
           ++ right. split; [|done]. intros ?. apply Hnin. by right.
Qed.

Lemma resolveColumns_err cols : forall acc e,
  resolveColumns cols acc = Err e ->
  exists stat, stat ∈ cols /\ columnResolver stat = Err e.
Proof.
  induction cols as [|x cols IH]; intros acc e Hr; simpl in Hr; [done|].
  destruct (columnResolver x) as [fx|e'] eqn:Hx.
  - destruct (IH _ _ Hr) as (stat & Hin & He). exists stat.
    split; [by right|done].
  - injection Hr as ->. exists x. split; [by left|done].
Qed.

Lemma resolveColumns_fails cols : forall acc stat,
  stat ∈ cols -> isErr (columnResolver stat) = true ->
  exists e, resolveColumns cols acc = Err e.
Proof.
  intros acc stat Hin He.
  destruct (resolveColumns cols acc) as [m|e] eqn:Hr; [|by eexists].
  destruct (resolveColumns_ok _ _ _ Hr) as [H1 _].
  destruct (H1 _ Hin) as (fn & Hfn). by rewrite Hfn in He.
Qed.

(** *** The loop that stores the resolvers under their keys *)

Lemma storeResolver_done u stat fn o o' :
  storeResolver u (stat, fn) o = (Done tt, o') ->
  exists k, statKeyOf stat = Done k /\
            o' = setResolver o (<[ k := fn ]> (trendStatsResolver o)).
Proof.
  unfold storeResolver, bind, lift, modify.
  destruct (statKeyOf stat) as [k|p]; [|done].
  intros [= <-]. by exists k.
Qed.

Lemma storeResolver_loop l : forall o o',
  foldM storeResolver tt l o = (Done tt, o') ->
  (config o' = config o /\ tsdb o' = tsdb o /\ client o' = client o) /\
  (forall stat fn, (stat, fn) ∈ l ->
     exists k, statKeyOf stat = Done k /\
               is_Some (trendStatsResolver o' !! k)) /\
  (forall k, is_Some (trendStatsResolver o !! k) ->
             is_Some (trendStatsResolver o' !! k)) /\
  (forall k fn, trendStatsResolver o' !! k = Some fn ->
     trendStatsResolver o !! k = Some fn \/
     exists stat, (stat, fn) ∈ l /\ statKeyOf stat = Done k).
Proof.
  induction l as [|[stat0 fn0] l IH]; intros o o' Hrun; cbn [foldM] in Hrun.
  - unfold ret in Hrun. injection Hrun as <-.
    split_and!; [done..|set_solver|done|by left].
  - unfold bind in Hrun.
    destruct (storeResolver tt (stat0, fn0) o) as [[[]|p] o1] eqn:H0;
      [|discriminate].
    destruct (storeResolver_done _ _ _ _ _ H0) as (k0 & Hk0 & ->).
    destruct (IH _ _ Hrun) as ((Hc & Ht & Hcl) & Hall & Hkeep & Hfrom).
    simpl in *. split_and!; [done..| | |].
    + intros stat fn [Heq|Hin]%elem_of_cons.
      * injection Heq as -> ->. exists k0. split; [done|].
        apply Hkeep. rewrite lookup_insert_eq. by eexists.
      * by eapply Hall.
    + intros k Hk. apply Hkeep.
      destruct (decide (k = k0)) as [->|Hne].
      * rewrite lookup_insert_eq. by eexists.
      * by rewrite lookup_insert_ne.
    + intros k fn Hk. destruct (Hfrom _ _ Hk) as [Hold|(stat & Hin & Hkey)].
      * destruct (decide (k = k0)) as [->|Hne].
        -- rewrite lookup_insert_eq in Hold. injection Hold as ->.
           right. exists stat0. split; [by left|done].
        -- rewrite lookup_insert_ne in Hold by done. by left.
      * right. exists stat. split; [by right|done].
Qed.

Lemma storeResolver_loop_total l : forall o,
  (forall stat fn, (stat, fn) ∈ l -> stat ≠ "p(") ->
  exists o', foldM storeResolver tt l o = (Done tt, o').
Proof.
  induction l as [|[stat0 fn0] l IH]; intros o Hne; simpl; [by eexists|].
  unfold bind.
  destruct (statKeyOf_total stat0) as (k0 & Hk0); [by eapply Hne; left|].
  unfold storeResolver at 1. unfold bind, lift, modify. rewrite Hk0.
  apply IH. intros stat fn Hin. eapply Hne. by right.
Qed.

(** *** [setTrendStatsResolver] *)

Lemma setTrendStatsResolver_cases trendStats o :
  (exists e stat,
     setTrendStatsResolver trendStats o = (Done (Some e), o) /\
     stat ∈ trendStats /\ stat ≠ "sum" /\ columnResolver stat = Err e) \/
  (exists l,
     (forall stat fn, (stat, fn) ∈ l <-> requested trendStats stat fn) /\
     (forall stat, stat ∈ trendStats -> stat ≠ "sum" ->
        isErr (columnResolver stat) = false) /\
     setTrendStatsResolver trendStats o =
       bind (foldM storeResolver tt l) (fun _ => ret None)
            (setResolver o ∅)).
Proof.
  unfold setTrendStatsResolver.
  destruct (copyExcludingSum trendStats) as [trendStatsCopy hasSum] eqn:Hc.
  destruct (copyExcludingSum_spec _ _ _ Hc) as [Hcopy Hsum].
  unfold GetResolversForTrendColumns.
  destruct (resolveColumns trendStatsCopy ∅) as [resolvers|e] eqn:Hr.
  - right.
    destruct (resolveColumns_ok _ _ _ Hr) as [Hall Hlook].
    eexists. split_and!; [| |reflexivity].
    + intros stat fn. rewrite rangeResolvers_perm, elem_of_map_to_list.
      unfold requested. destruct hasSum.
      * destruct (decide (stat = "sum")) as [->|Hne].
        -- rewrite lookup_insert_eq. split.
           ++ intros [= <-]. split; [by apply Hsum|by left].
           ++ intros [_ [[_ ->]|[? _]]]; done.
        -- rewrite lookup_insert_ne by done. rewrite Hlook, Hcopy.
           rewrite lookup_empty. naive_solver.
      * rewrite Hlook, Hcopy, lookup_empty.
        assert ("sum" ∉ trendStats) by (intros ?%Hsum; done).
        split.
        -- intros [[[? ?] ?]|[_ ?]]; [|done]. split; [done|by right].
        -- intros [Hin [[-> _]|[? ?]]]; [done|]. by left.
    + intros stat Hin Hne. destruct (Hall stat) as (fn & ->); [|done].
      by apply Hcopy.
  - left. destruct (resolveColumns_err _ _ _ Hr) as (stat & Hin & He).
    apply Hcopy in Hin as [Hin Hne]. by exists e, stat.
Qed.

Lemma setTrendStatsResolver_done trendStats o o' :
  setTrendStatsResolver trendStats o = (Done None, o') ->
  exists l,
    (forall stat fn, (stat, fn) ∈ l <-> requested trendStats stat fn) /\
    (forall stat, stat ∈ trendStats -> stat ≠ "sum" ->
       isErr (columnResolver stat) = false) /\
    foldM storeResolver tt l (setResolver o ∅) = (Done tt, o').
Proof.
  intros Hrun.
  destruct (setTrendStatsResolver_cases trendStats o)
    as [(e & stat & He & _)|(l & Hl & Hok & Heq)]; [congruence|].
  exists l. split_and!; [done..|].
  rewrite Heq in Hrun. unfold bind, ret in Hrun.
  destruct (foldM storeResolver tt l (setResolver o ∅)) as [[[]|p] o1];
    congruence.
Qed.

(** Every requested name stands for one computation. *)
Lemma requested_exists trendStats stat :
  stat ∈ trendStats ->
  (stat ≠ "sum" -> isErr (columnResolver stat) = false) ->
  exists fn, requested trendStats stat fn.
Proof.
  intros Hin Hok. unfold requested.
  destruct (decide (stat = "sum")) as [->|Hne].
  - exists metrics.Sum. split; [done|by left].
  - specialize (Hok Hne). destruct (columnResolver stat) as [fn|e] eqn:Hr;
      [|done].
    exists fn. split; [done|by right].
Qed.


(** ** Construction *)

Lemma setTrendStatsResolver_rejects trendStats o stat :
  stat ∈ trendStats -> stat ≠ "sum" -> isErr (columnResolver stat) = true ->
  exists e, setTrendStatsResolver trendStats o = (Done (Some e), o).
Proof.
  intros Hin Hne He.
  destruct (setTrendStatsResolver_cases trendStats o)
    as [(e & stat' & Hrun & _)|(l & Hl & Hok & Heq)]; [by exists e|].
  rewrite (Hok _ Hin Hne) in He. discriminate.
Qed.

Lemma setTrendStatsResolver_accepts trendStats o :
  (forall stat, stat ∈ trendStats -> stat ≠ "sum" ->
     isErr (columnResolver stat) = false) ->
  isErr (columnResolver "p(") = true ->
  exists o',
    setTrendStatsResolver trendStats o = (Done None, o') /\
    config o' = config o /\ tsdb o' = tsdb o /\ client o' = client o.
Proof.
  intros Hall Hparen.
  destruct (setTrendStatsResolver_cases trendStats o)
    as [(e & stat & Hrun & Hin & Hne & He)|(l & Hl & Hok & Heq)].
  { specialize (Hall _ Hin Hne). by rewrite He in Hall. }
  destruct (storeResolver_loop_total l (setResolver o ∅)) as (o' & Hloop).
  { intros stat fn Hin ->. apply Hl in Hin as [_ [[? _]|[_ Hr]]]; [done|].
    by rewrite Hr in Hparen. }
  exists o'. rewrite Heq. unfold bind, ret. rewrite Hloop.
  split; [done|].
  destruct (storeResolver_loop _ _ _ Hloop) as ((? & ? & ?) & _).
  by split_and!.
Qed.

(** C6. When the configured trend statistics hold a name other than
    "sum" for which the library has no computation, [New] returns an error
    and no output, and [setTrendStatsResolver] leaves its receiver as it
    was.  When every configured name other than "sum" has a computation,
    and the steps of [New] that come before (the configuration and the
    write client) have succeeded, [New] returns an output, with an empty
    series table.  The library is taken to refuse the two-byte name "p(",
    as its percentile form requires a closing parenthesis. *)
Theorem New_checks_trend_stats params cfg :
  GetConsolidatedConfig params = Ok cfg ->
  ((exists stat, stat ∈ TrendStats cfg /\ stat ≠ "sum" /\
                 isErr (columnResolver stat) = true) ->
   (exists e, New params = Done (Err e)) /\
   (forall o, exists e,
      setTrendStatsResolver (TrendStats cfg) o = (Done (Some e), o))) /\
  (isErr (columnResolver "p(") = true ->
   (forall stat, stat ∈ TrendStats cfg -> stat ≠ "sum" ->
      isErr (columnResolver stat) = false) ->
   forall clientConfig wc,
     RemoteConfig cfg = Ok clientConfig ->
     NewWriteClient (URL cfg) clientConfig = Ok wc ->
     exists o, New params = Done (Ok o) /\
               config o = cfg /\ client o = wc /\ tsdb o = ∅).
Proof.
  intros Hcfg. split.
  - intros (stat & Hin & Hne & He). split.
    + unfold New. rewrite Hcfg.
      destruct (RemoteConfig cfg) as [clientConfig|e1]; [|by eexists].
      destruct (NewWriteClient (URL cfg) clientConfig) as [wc|e2];
        [|by eexists].
      destruct (TrendStats cfg) as [|x xs] eqn:Hstats;
        [by apply elem_of_nil in Hin|].
      change (0 <? length (x :: xs))%nat with true. cbv iota.
      destruct (setTrendStatsResolver_rejects (x :: xs)
                  {| client := wc; config := cfg; tsdb := ∅;
                     trendStatsResolver := ∅ |} stat Hin Hne He) as (e & ->).
      by exists e.
    + intros o. by apply (setTrendStatsResolver_rejects _ o stat).
  - intros Hparen Hall clientConfig wc Hrc Hwc.
    unfold New. rewrite Hcfg, Hrc, Hwc.
    destruct (0 <? length (TrendStats cfg))%nat.
    + destruct (setTrendStatsResolver_accepts (TrendStats cfg)
                  {| client := wc; config := cfg; tsdb := ∅;
                     trendStatsResolver := ∅ |} Hall Hparen)
        as (o' & -> & Hc & Ht & Hcl).
      by exists o'.
    + by eexists.
Qed.

End trend_stats_facts.

Section encoding_facts.

Context {collab : Collaborators} {order : MapRange}.

Implicit Types (o : Output) (seen : gset metrics.TimeSeries)
  (swm : seriesWithMeasure) (s : metrics.TimeSeries).

Lemma mapMono_timestamps s t v :
  timestamps (setSample0Value (mapMonoSeries s t) v) = [time.UnixMilli t].
Proof. reflexivity. Qed.

(** What [MapPrompb] gives for one state: every wire series holds one
    point, stamped with the latest time of the state; there is one wire
    series for a counter, a gauge, a rate and a native histogram, and one
    per statistic of the table for a classic trend. *)
Lemma MapPrompb_shape swm newts :
  MapPrompb swm = Done newts ->
  Forall (fun ts => timestamps ts = [time.UnixMilli (Latest swm)]) newts /\
  (metrics.Type_ (metrics.Metric_ (TimeSeries swm)) ≠ metrics.Trend ->
   length newts = 1%nat) /\
  (forall h, Measure swm = nativeHistogramSink h -> length newts = 1%nat) /\
  (forall t tsr, Measure swm = extendedTrendSink t tsr ->
     length newts = size tsr).
Proof.
  unfold MapPrompb.
  destruct (Z.eqb_spec (metrics.Type_ (metrics.Metric_ (TimeSeries swm)))
              metrics.Counter) as [E0|N0].
  { destruct (Measure swm) eqn:Hm; try discriminate. intros [= <-].
    split_and!; [|done|done|done]. by repeat constructor. }
  destruct (Z.eqb_spec (metrics.Type_ (metrics.Metric_ (TimeSeries swm)))
              metrics.Gauge) as [E1|N1].
  { destruct (Measure swm) eqn:Hm; try discriminate. intros [= <-].
    split_and!; [|done|done|done]. by repeat constructor. }
  destruct (Z.eqb_spec (metrics.Type_ (metrics.Metric_ (TimeSeries swm)))
              metrics.Rate) as [E2|N2].
  { destruct (Measure swm) eqn:Hm; try discriminate. intros [= <-].
    split_and!; [|done|done|done]. by repeat constructor. }
  destruct (Z.eqb_spec (metrics.Type_ (metrics.Metric_ (TimeSeries swm)))
              metrics.Trend) as [E3|N3]; [|discriminate].
  destruct (Measure swm) as [v|v|a b|t tsr|h] eqn:Hm; simpl; try discriminate.
  - intros [= <-]. split_and!; [|done|done|].
    + apply Forall_forall. intros ts Hin.
      apply in_map_iff in Hin as ([stat fn] & <- & _). reflexivity.
    + intros t' tsr' [= <- <-]. rewrite length_map.
      rewrite rangeResolvers_perm. by rewrite length_map_to_list.
  - intros [= <-]. split_and!; [|done|done|done]. by repeat constructor.
Qed.


Lemma rangeSeen_spec seen :
  NoDup (rangeSeen seen) /\ (forall s, s ∈ rangeSeen seen <-> s ∈ seen).
Proof.
  split.
  - rewrite rangeSeen_perm. apply NoDup_elements.
  - intros s. rewrite rangeSeen_perm. apply elem_of_elements.
Qed.


End encoding_facts.

Section accumulation_facts.

Context {collab : Collaborators} {order : MapRange}.

Implicit Types (o : Output) (seen : gset metrics.TimeSeries)
  (sample : metrics.Sample) (swm : seriesWithMeasure)
  (s : metrics.TimeSeries).

Lemma accumulated_nil s o : accumulated s o o [].
Proof. split; [by split_and!|done]. Qed.

Lemma accumulated_app s o o1 o2 l1 l2 :
  accumulated s o o1 l1 -> accumulated s o1 o2 l2 ->
  accumulated s o o2 (l1 ++ l2).
Proof.
  intros [Hs1 H1] [Hs2 H2]. split.
  { destruct Hs1 as (?&?&?), Hs2 as (?&?&?). split_and!; congruence. }
  intros base Hbase. specialize (H1 base Hbase).
  destruct Hs1 as (Hc & Hr & _).
  destruct l1 as [|x l1].
  - assert (Hm : measureOf o1 s = Done base).
    { unfold measureOf in *. by rewrite H1, Hc, Hr. }
    specialize (H2 base Hm). simpl. destruct l2; [congruence|done].
  - destruct H1 as (swm1 & Hs & Hmeasure).
    assert (Hm : measureOf o1 s = Done (Measure swm1)).
    { unfold measureOf. by rewrite Hs. }
    specialize (H2 _ Hm). destruct l2 as [|y l2].
    + rewrite app_nil_r. exists swm1. split; [congruence|done].
    + destruct H2 as (swm2 & Hs2' & Hm2). exists swm2. split; [done|].
      rewrite Hm2, Hmeasure. by rewrite <- foldl_app.
Qed.

Lemma addSample_accumulated s seen sample o seen' o' :
  addSample seen sample o = (Done seen', o') ->
  accumulated s o o'
    (if bool_decide (metrics.Series sample = s) then [sample] else []).
Proof.
  intros Hadd. split.
  { pose proof (addSample_settings seen sample o) as Hs.
    by rewrite Hadd in Hs. }
  intros base Hbase. case_bool_decide as Hser.
  - subst s. unfold measureOf in Hbase.
    destruct (tsdb o !! metrics.Series sample) as [swm|] eqn:Hl.
    + rewrite (addSample_present _ _ _ _ Hl) in Hadd.
      injection Hadd as <- <-. injection Hbase as <-. simpl.
      rewrite lookup_insert_eq. by eexists.
    + rewrite (addSample_absent _ _ _ Hl) in Hadd.
      destruct (newSeriesWithMeasure _ _ _) as [swm0|p]; [|done].
      injection Hadd as <- <-. injection Hbase as <-. simpl.
      rewrite lookup_insert_eq. by eexists.
  - destruct (addSample_done _ _ _ _ _ Hadd) as (_ & _ & _ & Hother).
    apply Hother. congruence.
Qed.

Lemma foldM_addSample_accumulated s samples : forall seen o seen' o',
  foldM addSample seen samples o = (Done seen', o') ->
  accumulated s o o'
    (List.filter (fun sample => bool_decide (metrics.Series sample = s))
                 samples).
Proof.
  induction samples as [|x samples IH]; intros seen o seen' o' Hrun;
    cbn [foldM] in Hrun.
  - unfold ret in Hrun. injection Hrun as <- <-. apply accumulated_nil.
  - unfold bind in Hrun.
    destruct (addSample seen x o) as [[seen1|p] o1] eqn:Hx; [|discriminate].
    pose proof (addSample_accumulated s _ _ _ _ _ Hx) as H1.
    pose proof (IH _ _ _ _ Hrun) as H2.
    pose proof (accumulated_app _ _ _ _ _ _ H1 H2) as H12.
    simpl. by destruct (bool_decide (metrics.Series x = s)).
Qed.

Lemma aggregate_accumulated s containers o seen o' :
  aggregate containers o = (Done seen, o') ->
  accumulated s o o' (samplesOf s containers).
Proof.
  unfold aggregate, samplesOf. generalize (∅ : gset metrics.TimeSeries).
  revert o seen o'.
  induction containers as [|c containers IH]; intros o seen o' seen0 Hrun;
    cbn [foldM] in Hrun.
  - unfold ret in Hrun. injection Hrun as <- <-. apply accumulated_nil.
  - unfold bind in Hrun.
    destruct (foldM addSample seen0 (metrics.GetSamples c) o)
      as [[seen1|p] o1] eqn:Hc; [|discriminate].
    simpl. rewrite List.filter_app.
    eapply accumulated_app; [|by eapply IH].
    by eapply foldM_addSample_accumulated.
Qed.

Lemma flush_accumulated s env o :
  panicked (flush env o) = None ->
  accumulated s o (after (flush env o)) (samplesOf s (buffered env)).
Proof.
  intros Hp. rewrite flush_after. unfold flush in Hp.
  destruct (length (buffered env) <? 1)%nat eqn:Hlen.
  - destruct (buffered env); [apply accumulated_nil|done].
  - unfold convertToPbSeries, bind in Hp.
    destruct (aggregate (buffered env) o) as [[seen|p] o1] eqn:Hagg;
      [|done].
    by eapply aggregate_accumulated.
Qed.

Lemma flushes_accumulated s envs : forall o,
  Forall (fun r => panicked r = None) (flushes envs o) ->
  accumulated s o (run envs o) (samplesOf s (concat (map buffered envs))).
Proof.
  induction envs as [|env envs IH]; intros o Hall; simpl.
  - apply accumulated_nil.
  - simpl in Hall.
    destruct (panicked (flush env o)) eqn:Hp.
    + apply Forall_cons_iff in Hall as [Hhd _]. congruence.
    + apply Forall_cons_iff in Hall as [_ Htl].
      unfold samplesOf. rewrite concat_app, List.filter_app.
      eapply accumulated_app; [by apply flush_accumulated|].
      by apply IH.
Qed.

(** *** What the three simple sinks hold after a list of samples *)

Lemma foldl_CounterSink samples : forall c,
  foldl Sink_Add (CounterSink c) samples
  = CounterSink (foldl PrimFloat.add c (map metrics.Value samples)).
Proof. induction samples as [|x l IH]; intros c; simpl; [done|apply IH]. Qed.

Lemma last_cons_shift (vs : list float) : forall v g,
  List.last (v :: vs) g = List.last vs v.
Proof.
  induction vs as [|w ws IH]; intros v g; [done|].
  change (List.last (v :: w :: ws) g) with (List.last (w :: ws) g).
  by rewrite !IH.
Qed.

Lemma foldl_GaugeSink samples : forall g,
  foldl Sink_Add (GaugeSink g) samples
  = GaugeSink (List.last (map metrics.Value samples) g).
Proof.
  induction samples as [|x l IH]; intros g; [done|].
  cbn [foldl Sink_Add map]. by rewrite IH, last_cons_shift.
Qed.

Lemma foldl_RateSink samples : forall trues total,
  foldl Sink_Add (RateSink trues total) samples
  = RateSink
      (trues + Z.of_nat (length (List.filter nonZero
                                   (map metrics.Value samples))))
      (total + Z.of_nat (length samples)).
Proof.
  induction samples as [|x l IH]; intros trues total.
  - simpl. f_equal; lia.
  - cbn [foldl Sink_Add]. rewrite IH. cbn [map List.filter length].
    unfold nonZero at 2.
    destruct (PrimFloat.eqb (metrics.Value x) PrimFloat.zero); simpl;
      f_equal; lia.
Qed.

(** *** The states of the table carry their own key *)

#[local] Instance keeps_keyed_refl : Reflexive keeps_keyed.
Proof. intros o Hk. exact Hk. Qed.

#[local] Instance keeps_keyed_trans : Transitive keeps_keyed.
Proof. intros o1 o2 o3 H12 H23 H1. by apply H23, H12. Qed.

Lemma addSample_keyed seen sample o : keeps_keyed o (addSample seen sample o).2.
Proof.
  intros Hk. destruct (tsdb o !! metrics.Series sample) as [swm|] eqn:Hl.
  - rewrite (addSample_present _ _ _ _ Hl). intros s swm1. simpl.
    destruct (decide (s = metrics.Series sample)) as [->|Hne].
    + rewrite lookup_insert_eq. intros [= <-]. simpl. by apply Hk.
    + rewrite lookup_insert_ne by done. apply Hk.
  - rewrite (addSample_absent _ _ _ Hl).
    destruct (newSeriesWithMeasure _ _ _) as [swm0|p] eqn:Hn; [|done].
    destruct (newSeriesWithMeasure_done _ _ _ _ Hn) as (Hts & _).
    intros s swm1. simpl.
    destruct (decide (s = metrics.Series sample)) as [->|Hne].
    + rewrite lookup_insert_eq. by intros [= <-].
    + rewrite lookup_insert_ne by done. apply Hk.
Qed.

Lemma flush_keyed env o : keeps_keyed o (after (flush env o)).
Proof.
  rewrite flush_after. destruct (length (buffered env) <? 1)%nat; [done|].
  unfold aggregate. apply foldM_preserves; try apply _.
  intros seen c o1. apply foldM_preserves; try apply _.
  intros; apply addSample_keyed.
Qed.

Lemma run_keyed envs : forall o, keeps_keyed o (run envs o).
Proof.
  induction envs as [|env envs IH]; intros o; simpl; [done|].
  destruct (panicked (flush env o)); [apply flush_keyed|].
  etransitivity; [apply flush_keyed|apply IH].
Qed.

(** C4, as amended.  The table keeps the sink of a series from flush to
    flush: after a run of flushes started with an empty table, the sink of
    a series has received every sample of that series in the run, in
    arrival order.  So a counter holds and emits the sum of all values of
    the run; a rate holds the number of non-zero samples and the number of
    samples of the whole run and emits their ratio; and a gauge holds and
    emits the value of the last sample of the run. *)
Theorem sinks_hold_the_whole_run envs o s :
  tsdb o = ∅ ->
  Forall (fun r => panicked r = None) (flushes envs o) ->
  samplesOf s (concat (map buffered envs)) ≠ [] ->
  let values :=
    map metrics.Value (samplesOf s (concat (map buffered envs))) in
  let ty := metrics.Type_ (metrics.Metric_ s) in
  (ty = metrics.Counter ->
   exists swm,
     tsdb (run envs o) !! s = Some swm /\
     Measure swm = CounterSink (foldl PrimFloat.add PrimFloat.zero values) /\
     emitted swm = Some (foldl PrimFloat.add PrimFloat.zero values)) /\
  (ty = metrics.Gauge ->
   exists swm,
     tsdb (run envs o) !! s = Some swm /\
     Measure swm = GaugeSink (List.last values PrimFloat.zero) /\
     emitted swm = Some (List.last values PrimFloat.zero)) /\
  (ty = metrics.Rate ->
   exists swm,
     tsdb (run envs o) !! s = Some swm /\
     Measure swm = RateSink (Z.of_nat (length (List.filter nonZero values)))
                            (Z.of_nat (length values)) /\
     emitted swm =
       Some (RateSink_Format_rate
               (Z.of_nat (length (List.filter nonZero values)))
               (Z.of_nat (length values)))).
Proof.
  intros Hempty Hall Hsamples values ty.
  destruct (flushes_accumulated s envs o Hall) as [_ Hacc].
  assert (Hkeyed : keyed (run envs o)).
  { apply run_keyed. intros s' swm'. by rewrite Hempty, lookup_empty. }
  assert (Hget : forall base,
    newSeriesWithMeasure s (TrendAsNativeHistogram (config o))
      (trendStatsResolver o)
    = Done {| TimeSeries := s; Measure := base; Latest := time.zero |} ->
    exists swm, tsdb (run envs o) !! s = Some swm /\ TimeSeries swm = s /\
      Measure swm
        = foldl Sink_Add base (samplesOf s (concat (map buffered envs)))).
  { intros base Hnew. specialize (Hacc base).
    unfold measureOf in Hacc. rewrite Hempty, lookup_empty, Hnew in Hacc.
    specialize (Hacc eq_refl).
    destruct (samplesOf s (concat (map buffered envs))); [done|].
    destruct Hacc as (swm & Hs & Hm). exists swm.
    split_and!; [done| |done]. by apply Hkeyed. }
  split_and!; intros Hty; fold ty in Hty.
  - destruct (Hget (CounterSink PrimFloat.zero)) as (swm & Hs & Hts & Hm).
    { unfold newSeriesWithMeasure. fold ty. by rewrite Hty. }
    rewrite foldl_CounterSink in Hm. exists swm. split_and!; [done..|].
    unfold emitted, MapPrompb. rewrite Hts. fold ty. by rewrite Hty, Hm.
  - destruct (Hget (GaugeSink PrimFloat.zero)) as (swm & Hs & Hts & Hm).
    { unfold newSeriesWithMeasure. fold ty. by rewrite Hty. }
    rewrite foldl_GaugeSink in Hm. exists swm. split_and!; [done..|].
    unfold emitted, MapPrompb. rewrite Hts. fold ty. by rewrite Hty, Hm.
  - destruct (Hget (RateSink 0 0)) as (swm & Hs & Hts & Hm).
    { unfold newSeriesWithMeasure. fold ty. by rewrite Hty. }
    rewrite foldl_RateSink in Hm. rewrite !Z.add_0_l in Hm.
    rewrite <- (length_map metrics.Value) in Hm.
    exists swm. split_and!; [done..|].
    unfold emitted, MapPrompb. rewrite Hts. fold ty. by rewrite Hty, Hm.
Qed.

End accumulation_facts.

(** * The properties at concrete inputs *)

Lemma no_panic_check {collab : Collaborators} (rs : list FlushResult) :
  forallb (fun r => match panicked r with None => true | Some _ => false end)
          rs = true ->
  Forall (fun r => panicked r = None) rs.
Proof.
  intros Hall. apply Forall_forall. intros r Hin.
  rewrite forallb_forall in Hall. specialize (Hall r Hin).
  by destruct (panicked r).
Qed.

Module examples.

Import demo.

Example started_by_New :
  New (cfg ["count"; "sum"] false) = Done (Ok o0).
Proof. reflexivity. Qed.

(** The three values are summed into one point of value 6. *)
Example counter_first_flush :
  (convertToPbSeries first_batch o0).1
  = Done [ {| prompb.Labels := labels http_reqs "";
              prompb.Samples :=
                [ {| prompb.Value := 6%float; prompb.Timestamp := 1 |} ];
              prompb.Histograms := [] |} ].
Proof. reflexivity. Qed.

(** Ten checks, three of them non-zero, give the rate 3/10. *)
Example rate_three_of_ten :
  (convertToPbSeries
     [ map (fun v => sample checks 1000000 v)
           [1; 0; 0; 1; 0; 0; 0; 1; 0; 0]%float ] o0).1
  = Done [ {| prompb.Labels := labels checks "";
              prompb.Samples :=
                [ {| prompb.Value := PrimFloat.div 3 10;
                     prompb.Timestamp := 1 |} ];
              prompb.Histograms := [] |} ].
Proof. reflexivity. Qed.

(** The median of 1, ..., 10 is 5.5. *)
Example median_of_ten :
  percentile 50 1
    {| metrics.Values := [1; 2; 3; 4; 5; 6; 7; 8; 9; 10]%float;
       metrics.Sum := 55%float |}
  = 5.5%float.
Proof. reflexivity. Qed.

(** C1 at three requests.  On the empty table the first one creates the
    counter's state with a fresh counter sink, latest time the first
    millisecond, and marks the series.  On the table after the first batch
    (value 6, latest the first millisecond) a request in the fourth
    millisecond moves the latest time and marks the series, and a request
    that truncates to the first millisecond is added without a mark. *)
Lemma addSample_follows_algorithm_witness :
  (tsdb o0 !! http_reqs = None /\
   buildable o0 http_reqs /\
   newSeriesWithMeasure http_reqs false (trendStatsResolver o0)
   = Done {| TimeSeries := http_reqs; Measure := CounterSink 0%float;
             Latest := time.zero |} /\
   exists o',
     addSample ∅ creating_sample o0 = (Done ({[ http_reqs ]} ∪ ∅), o') /\
     tsdb o' !! http_reqs
     = Some {| TimeSeries := http_reqs; Measure := CounterSink 2%float;
               Latest := 1000000 |}) /\
  (tsdb o1 !! http_reqs
   = Some {| TimeSeries := http_reqs; Measure := CounterSink 6%float;
             Latest := 1000000 |} /\
   exists o' swm',
     addSample ∅ advancing_sample o1 = (Done ({[ http_reqs ]} ∪ ∅), o') /\
     tsdb o' !! http_reqs = Some swm' /\
     Measure swm' = CounterSink 10%float /\ Latest swm' = 3000000) /\
  (exists o' swm',
     addSample ∅ stale_sample o1 = (Done ∅, o') /\
     tsdb o' !! http_reqs = Some swm' /\
     Measure swm' = CounterSink 10%float /\ Latest swm' = 1000000).
Proof.
  assert (Hb : buildable o0 http_reqs).
  { split; [left; reflexivity|]. intros Hty. discriminate Hty. }
  split; [|split].
  - split; [reflexivity|]. split; [exact Hb|].
    destruct (proj1 (addSample_follows_algorithm ∅ creating_sample o0) Hb)
      as (sink & o' & Hsink & Hnew & Hadd & Hs & _).
    destruct Hsink as [[_ ->]|[[Hty _]|[[Hty _]|[[Hty _]|[Hty _]]]]];
      [|discriminate Hty..].
    split; [exact Hnew|]. exists o'. split; [exact Hadd|exact Hs].
  - split; [reflexivity|].
    assert (H : exists seen' o' swm',
               addSample ∅ advancing_sample o1 = (Done seen', o') /\
               tsdb o' !! http_reqs = Some swm' /\
               Measure swm' = CounterSink 10%float /\
               (1000000 < 3000000 ->
                Latest swm' = 3000000 /\ seen' = {[ http_reqs ]} ∪ ∅) /\
               (3000000 <= 1000000 ->
                Latest swm' = 1000000 /\ seen' = ∅))
      by exact (addSample_follows_algorithm ∅ advancing_sample o1).
    destruct H as (seen' & o' & swm' & Hadd & Hs & Hm & Hlater & _).
    destruct Hlater as [Hl ->]; [reflexivity|].
    exists o', swm'.
    split; [exact Hadd|]. split; [exact Hs|]. split; [exact Hm|exact Hl].
  - assert (H : exists seen' o' swm',
               addSample ∅ stale_sample o1 = (Done seen', o') /\
               tsdb o' !! http_reqs = Some swm' /\
               Measure swm' = CounterSink 10%float /\
               (1000000 < 1000000 ->
                Latest swm' = 1000000 /\ seen' = {[ http_reqs ]} ∪ ∅) /\
               (1000000 <= 1000000 ->
                Latest swm' = 1000000 /\ seen' = ∅))
      by exact (addSample_follows_algorithm ∅ stale_sample o1).
    destruct H as (seen' & o' & swm' & Hadd & Hs & Hm & _ & Hnot).
    destruct Hnot as [Hl ->]; [intros Hgt; discriminate Hgt|].
    exists o', swm'.
    split; [exact Hadd|]. split; [exact Hs|]. split; [exact Hm|exact Hl].
Defined.

(** C5 at the second tick of the run, with nothing buffered: the table
    still holds the counter, and nothing is sent. *)
Lemma flush_empty_buffer_witness :
  buffered (env [] 1000 None) = [] /\
  after (flush (env [] 1000 None) o1) = o1 /\
  trace (flush (env [] 1000 None) o1) = [DebugNoSamples; DebugFlushed 0 1000] /\
  aggregate (buffered (env [] 1000 None)) o1 = (Done ∅, o1).
Proof.
  split; [reflexivity|].
  destruct (flush_empty_buffer (env [] 1000 None) o1 eq_refl)
    as (Ha & _ & _ & Ht & _ & Hagg & _).
  split; [exact Ha|]. split; [exact Ht|exact Hagg].
Defined.

(** C7 at the kind 7. *)
Lemma unrecognized_kind_panics_witness :
  (7 ≠ metrics.Counter /\ 7 ≠ metrics.Gauge /\
   7 ≠ metrics.Rate /\ 7 ≠ metrics.Trend) /\
  newSeriesWithMeasure odd false (trendStatsResolver o0)
    = Panicked (PanicUnsupportedType 7) /\
  MapPrompb {| TimeSeries := odd; Measure := CounterSink 1%float;
               Latest := 1000000 |}
    = Panicked (PanicUnrecognizedType "odd" 7) /\
  is_Some (panicked (flush (env [[sample odd 1000000 1%float]] 1000 None) o0)).
Proof.
  assert (H0 : 7 ≠ metrics.Counter) by discriminate.
  assert (H1 : 7 ≠ metrics.Gauge) by discriminate.
  assert (H2 : 7 ≠ metrics.Rate) by discriminate.
  assert (H3 : 7 ≠ metrics.Trend) by discriminate.
  split; [by split_and!|].
  destruct (unrecognized_kind_panics 7 H0 H1 H2 H3) as (Hnew & Hmap & Hflush).
  split; [exact (Hnew odd false _ eq_refl)|].
  split; [exact (Hmap (mkSeriesWithMeasure odd _ _) eq_refl)|].
  refine (proj1 (Hflush (env [[sample odd 1000000 1%float]] 1000 None) o0
                   [sample odd 1000000 1%float] (sample odd 1000000 1%float)
                   _ _ eq_refl _)).
  - by left.
  - by left.
  - reflexivity.
Defined.

(** C8 at the first batch: one call, one error log, no panic, and the
    table as after a delivery. *)
Lemma flush_store_failure_witness :
  (buffered failing ≠ [] /\
   convertToPbSeries (buffered failing) o0 = (Done first_wire, o1) /\
   store failing first_wire = Some "server returned HTTP status 500") /\
  trace (flush failing o0)
    = [DebugConverted 1; Store first_wire;
       ErrorStore "server returned HTTP status 500";
       DebugFlushed 1 1000] /\
  panicked (flush failing o0) = None /\
  after (flush failing o0) = o1.
Proof.
  assert (Hb : buffered failing ≠ []) by discriminate.
  assert (Hc : convertToPbSeries (buffered failing) o0 = (Done first_wire, o1))
    by reflexivity.
  assert (Hs : store failing first_wire
               = Some "server returned HTTP status 500") by reflexivity.
  split; [by split_and!|].
  destruct (flush_store_failure failing o0 first_wire o1 _ Hb Hc Hs)
    as (Ht & _ & Hp & Ha & _).
  split; [exact Ht|]. split; [exact Hp|exact Ha].
Defined.


(** C6 at a configuration with an unknown name, and at one without. *)
Lemma New_checks_trend_stats_witness :
  (GetConsolidatedConfig (cfg ["p(95)"; "sum"; "bogus"] false)
     = Ok (cfg ["p(95)"; "sum"; "bogus"] false) /\
   "bogus" ∈ TrendStats (cfg ["p(95)"; "sum"; "bogus"] false) /\
   isErr (columnResolver "bogus") = true /\
   exists e, New (cfg ["p(95)"; "sum"; "bogus"] false) = Done (Err e)) /\
  (GetConsolidatedConfig (cfg requested_stats false)
     = Ok (cfg requested_stats false) /\
   isErr (columnResolver "p(") = true /\
   exists o, New (cfg requested_stats false) = Done (Ok o) /\ tsdb o = ∅).
Proof.
  split.
  - assert (Hin : "bogus" ∈ TrendStats (cfg ["p(95)"; "sum"; "bogus"] false))
      by (do 2 right; by left).
    split; [reflexivity|]. split; [exact Hin|]. split; [reflexivity|].
    refine (proj1 (proj1 (New_checks_trend_stats
                            (cfg ["p(95)"; "sum"; "bogus"] false) _ eq_refl) _)).
    exists "bogus". split; [exact Hin|]. split; [discriminate|reflexivity].
  - split; [reflexivity|]. split; [reflexivity|].
    destruct (proj2 (New_checks_trend_stats (collab := k6) (order := keyOrder)
                       (cfg requested_stats false) (cfg requested_stats false)
                       eq_refl) eq_refl) with (clientConfig := tt) (wc := tt)
      as (o & Hnew & _ & _ & Ht).
    + intros stat Hin Hne. unfold requested_stats in Hin. simpl in Hin.
      repeat (apply elem_of_cons in Hin as [->|Hin]; [try reflexivity|]).
      * done.
      * by apply elem_of_nil in Hin.
    + reflexivity.
    + reflexivity.
    + exists o. by split.
Defined.



(** C4 as stated fails on a rate: after the second flush the rate sent is
    2/3, from the counts of both windows, while the second window alone
    holds one sample, a zero, which gives the rate 0. *)
Lemma rate_spans_the_run :
  exists swm window,
    tsdb (run checks_run o0) !! checks = Some swm /\
    Measure swm = RateSink 2 3 /\
    emitted swm = Some (PrimFloat.div 2 3) /\
    List.last (map trace (flushes checks_run o0)) []
      = [ DebugConverted 1;
          Store [ {| prompb.Labels := labels checks "";
                     prompb.Samples :=
                       [ {| prompb.Value := PrimFloat.div 2 3;
                            prompb.Timestamp := 2 |} ];
                     prompb.Histograms := [] |} ];
          DebugFlushed 1 1000 ] /\
    tsdb (run (tail checks_run) o0) !! checks = Some window /\
    Measure window = RateSink 0 1 /\
    emitted window = Some PrimFloat.zero /\
    PrimFloat.eqb (PrimFloat.div 2 3) PrimFloat.zero = false.
Proof.
  exists {| TimeSeries := checks; Measure := RateSink 2 3;
            Latest := 2000000 |},
         {| TimeSeries := checks; Measure := RateSink 0 1;
            Latest := 2000000 |}.
  repeat (split; [reflexivity|]). reflexivity.
Qed.

Lemma sinks_hold_the_whole_run_witness :
  (tsdb o0 = ∅ /\
   Forall (fun r => panicked r = None) (flushes counter_run o0) /\
   samplesOf http_reqs (concat (map buffered counter_run)) ≠ []) /\
  exists swm,
    tsdb (run counter_run o0) !! http_reqs = Some swm /\
    Measure swm = CounterSink 10%float /\
    emitted swm = Some 10%float.
Proof.
  assert (H0 : tsdb o0 = ∅) by reflexivity.
  assert (H1 : Forall (fun r => panicked r = None) (flushes counter_run o0))
    by (apply no_panic_check; reflexivity).
  assert (H2 : samplesOf http_reqs (concat (map buffered counter_run)) ≠ [])
    by discriminate.
  split; [by split_and!|].
  destruct (sinks_hold_the_whole_run counter_run o0 http_reqs H0 H1 H2)
    as (Hcounter & _ & _).
  destruct (Hcounter eq_refl) as (swm & Hs & Hm & He).
  exists swm. split; [exact Hs|]. split; [exact Hm|exact He].
Defined.

End examples.

(** * Further properties of the conversion *)

Section batch_facts.

Context {collab : Collaborators} {order : MapRange}.

Implicit Types (o : Output) (seen : gset metrics.TimeSeries)
  (sample : metrics.Sample) (swm : seriesWithMeasure)
  (s : metrics.TimeSeries).

(** *** The samples of a batch, one after the other *)

Lemma foldM_app {A B} (f : B -> A -> M B) (l1 l2 : list A) : forall b o,
  foldM f b (l1 ++ l2) o =
  match foldM f b l1 o with
  | (Done b', o') => foldM f b' l2 o'
  | (Panicked p, o') => (Panicked p, o')
  end.
Proof.
  induction l1 as [|a l1 IH]; intros b o; [done|].
  cbn [foldM app]. unfold bind.
  destruct (f b a o) as [[b1|p] o1]; [apply IH|done].
Qed.

Lemma aggregate_flat containers : forall seen o,
  foldM (fun seen samplesContainer =>
           foldM addSample seen (metrics.GetSamples samplesContainer))
        seen containers o
  = foldM addSample seen (concat containers) o.
Proof.
  induction containers as [|c containers IH]; intros seen o; [done|].
  cbn [foldM concat]. rewrite foldM_app. unfold bind, metrics.GetSamples.
  destruct (foldM addSample seen c o) as [[seen1|p] o1]; [apply IH|done].
Qed.

Lemma elem_of_concat {A} (x : A) (ls : list (list A)) :
  x ∈ concat ls <-> exists l, l ∈ ls /\ x ∈ l.
Proof.
  rewrite list_elem_of_In, in_concat. split.
  - intros (l & Hl & Hx). exists l. by rewrite !list_elem_of_In.
  - intros (l & Hl & Hx). exists l. by rewrite <- !list_elem_of_In.
Qed.

Lemma convertToPbSeries_done containers o pb o' :
  convertToPbSeries containers o = (Done pb, o') ->
  exists seen,
    foldM addSample ∅ (concat containers) o = (Done seen, o') /\
    aggregate containers o = (Done seen, o') /\
    encode seen o' = (Done pb, o').
Proof.
  unfold convertToPbSeries, bind. intros Hrun.
  destruct (aggregate containers o) as [[seen|p] o1] eqn:Hagg; [|done].
  pose proof (encode_state seen o1) as Hst. rewrite Hrun in Hst.
  simpl in Hst. subst o1. exists seen. split_and!; [|done..].
  unfold aggregate in Hagg. by rewrite aggregate_flat in Hagg.
Qed.


(** *** What a batch leaves alone *)

Lemma addSample_frame seen sample o s :
  s ≠ metrics.Series sample ->
  tsdb (addSample seen sample o).2 !! s = tsdb o !! s.
Proof.
  intros Hne. destruct (tsdb o !! metrics.Series sample) as [swm|] eqn:Hl.
  - rewrite (addSample_present _ _ _ _ Hl). simpl.
    by rewrite lookup_insert_ne.
  - rewrite (addSample_absent _ _ _ Hl).
    destruct (newSeriesWithMeasure _ _ _); [|done]. simpl.
    by rewrite lookup_insert_ne.
Qed.

Lemma foldM_addSample_frame samples s : forall seen o,
  (forall sample, sample ∈ samples -> metrics.Series sample ≠ s) ->
  tsdb (foldM addSample seen samples o).2 !! s = tsdb o !! s.
Proof.
  induction samples as [|x samples IH]; intros seen o Hall; [done|].
  cbn [foldM]. unfold bind.
  pose proof (addSample_frame seen x o s) as Hx.
  destruct (addSample seen x o) as [[seen1|p] o1]; simpl in *.
  - rewrite IH; [apply Hx|].
    + intros ->. by eapply Hall; [left|].
    + intros y Hy. apply Hall. by right.
  - apply Hx. intros ->. by eapply Hall; [left|].
Qed.

(** X2. A flush writes nothing but the states of the series that have a
    sample in the drained containers: the configuration, the resolver
    table and the client stay, and so does the state (or the absence) of
    every other series, whether the flush ends, skips or panics. *)
Theorem flush_touches_only_the_batch env o :
  config (after (flush env o)) = config o /\
  trendStatsResolver (after (flush env o)) = trendStatsResolver o /\
  client (after (flush env o)) = client o /\
  forall s,
    (forall c sample, c ∈ buffered env -> sample ∈ c ->
       metrics.Series sample ≠ s) ->
    tsdb (after (flush env o)) !! s = tsdb o !! s.
Proof.
  rewrite flush_after.
  destruct (length (buffered env) <? 1)%nat; [by split_and!|].
  destruct (aggregate_settings (buffered env) o) as (Hc & Hr & Hcl).
  split_and!; [done..|].
  intros s Hall. unfold aggregate. rewrite aggregate_flat.
  apply foldM_addSample_frame. intros sample Hin.
  apply elem_of_concat in Hin as (c & Hc' & Hin). by eapply Hall.
Qed.

(** *** The series of the table after a batch *)

Lemma foldM_addSample_dom samples : forall seen o seen' o',
  foldM addSample seen samples o = (Done seen', o') ->
  forall s,
    is_Some (tsdb o' !! s) <->
    is_Some (tsdb o !! s) \/
    exists sample, sample ∈ samples /\ metrics.Series sample = s.
Proof.
  induction samples as [|x samples IH]; intros seen o seen' o' Hrun s;
    cbn [foldM] in Hrun.
  - unfold ret in Hrun. injection Hrun as <- <-. split; [by left|].
    intros [?|(y & Hy & _)]; [done|]. by apply elem_of_nil in Hy.
  - unfold bind in Hrun.
    destruct (addSample seen x o) as [[seen1|p] o1] eqn:Hx; [|done].
    destruct (addSample_done _ _ _ _ _ Hx) as (_ & _ & Hsome & Hother).
    rewrite (IH _ _ _ _ Hrun s).
    destruct (decide (s = metrics.Series x)) as [->|Hne].
    + split; [|by left]. intros _. right. exists x. split; [by left|done].
    + rewrite (Hother _ Hne). split.
      * intros [?|(y & Hy & Hs)]; [by left|].
        right. exists y. split; [by right|done].
      * intros [?|(y & Hy & Hs)]; [by left|].
        apply elem_of_cons in Hy as [->|Hy]; [congruence|].
        right. by exists y.
Qed.

(** X3. After a conversion that ends, the table holds the series it held
    before and the series of the samples of the batch, and no other: a
    series is never removed, and one is added for each new series met. *)
Theorem table_after_batch containers o pb o' :
  convertToPbSeries containers o = (Done pb, o') ->
  forall s,
    is_Some (tsdb o' !! s) <->
    is_Some (tsdb o !! s) \/
    exists c sample,
      c ∈ containers /\ sample ∈ c /\ metrics.Series sample = s.
Proof.
  intros Hrun s.
  destruct (convertToPbSeries_done _ _ _ _ Hrun) as (seen & Hflat & _).
  rewrite (foldM_addSample_dom _ _ _ _ _ Hflat s). split.
  - intros [?|(x & Hx & Hs)]; [by left|]. right.
    apply elem_of_concat in Hx as (c & Hc & Hx). by exists c, x.
  - intros [?|(c & x & Hc & Hx & Hs)]; [by left|]. right.
    exists x. split; [|done]. apply elem_of_concat. by exists c.
Qed.

End batch_facts.

Section marks_facts.

Context {collab : Collaborators} {order : MapRange}.

Implicit Types (o : Output) (seen : gset metrics.TimeSeries)
  (sample : metrics.Sample) (swm : seriesWithMeasure)
  (s : metrics.TimeSeries).

(** *** Which series a batch marks *)

Lemma foldM_addSample_seen_mono samples : forall seen o seen' o',
  foldM addSample seen samples o = (Done seen', o') -> seen ⊆ seen'.
Proof.
  induction samples as [|x samples IH]; intros seen o seen' o' Hrun;
    cbn [foldM] in Hrun.
  - unfold ret in Hrun. by injection Hrun as <- <-.
  - unfold bind in Hrun.
    destruct (addSample seen x o) as [[seen1|p] o1] eqn:Hx; [|done].
    destruct (addSample_done _ _ _ _ _ Hx) as (Hsub & _).
    etransitivity; [exact Hsub|by eapply IH].
Qed.

Lemma foldM_addSample_marks samples : forall seen o seen' o',
  foldM addSample seen samples o = (Done seen', o') ->
  forall s,
    s ∈ seen' <->
    s ∈ seen \/
    exists sample,
      sample ∈ samples /\ metrics.Series sample = s /\
      forall swm, tsdb o !! s = Some swm -> Latest swm < truncTimeOf sample.
Proof.
  induction samples as [|x samples IH]; intros seen o seen' o' Hrun s;
    cbn [foldM] in Hrun.
  - unfold ret in Hrun. injection Hrun as <- <-. split; [by left|].
    intros [?|(y & Hy & _)]; [done|]. by apply elem_of_nil in Hy.
  - unfold bind in Hrun.
    destruct (addSample seen x o) as [[seen1|p] o1] eqn:Hx; [|done].
    pose proof (foldM_addSample_seen_mono _ _ _ _ _ Hrun) as Hmono.
    specialize (IH _ _ _ _ Hrun s).
    destruct (decide (metrics.Series x = s)) as [Heq|Hne].
    + subst s. destruct (tsdb o !! metrics.Series x) as [swm|] eqn:Hl.
      * rewrite (addSample_present _ _ _ _ Hl) in Hx.
        destruct (time.After (truncTimeOf x) (Latest swm)) eqn:Ha;
          injection Hx as <- <-.
        -- apply After_true in Ha. split.
           ++ intros _. right. exists x. split; [by left|]. split; [done|].
              by intros swm' [= <-].
           ++ intros _. apply Hmono. set_solver.
        -- apply After_false in Ha. rewrite IH. simpl.
           rewrite lookup_insert_eq. split.
           ++ intros [?|(y & Hy & Hs & Hlater)]; [by left|]. right.
              exists y. split; [by right|]. split; [done|].
              intros swm' [= <-]. by apply (Hlater _ eq_refl).
           ++ intros [?|(y & Hy & Hs & Hlater)]; [by left|].
              specialize (Hlater _ eq_refl).
              apply elem_of_cons in Hy as [->|Hy]; [lia|].
              right. exists y. split; [done|]. split; [done|].
              by intros swm' [= <-].
      * rewrite (addSample_absent _ _ _ Hl) in Hx.
        destruct (newSeriesWithMeasure _ _ _) as [swm0|p]; [|done].
        injection Hx as <- <-. split.
        -- intros _. right. exists x. split; [by left|]. split; [done|].
           by intros swm'.
        -- intros _. apply Hmono. set_solver.
    + destruct (addSample_done _ _ _ _ _ Hx) as (Hsub & Hsup & _ & Hother).
      rewrite IH. rewrite (Hother s) by done. split.
      * intros [Hin|(y & Hy & Hs & Hlater)].
        -- left. apply Hsup in Hin. set_solver.
        -- right. exists y. split; [by right|done].
      * intros [Hin|(y & Hy & Hs & Hlater)].
        -- left. by apply Hsub.
        -- apply elem_of_cons in Hy as [->|Hy]; [done|].
           right. by exists y.
Qed.

(** X4. The series that a batch marks are exactly those with a sample in
    the batch that creates the series or advances it: a series is marked
    when, and only when, one of its samples meets no state in the table as
    it was before the batch, or has a truncated time after the latest time
    stored in it. *)
Theorem marked_iff_created_or_advanced containers o seen o' :
  aggregate containers o = (Done seen, o') ->
  forall s,
    s ∈ seen <->
    exists c sample,
      c ∈ containers /\ sample ∈ c /\ metrics.Series sample = s /\
      forall swm,
        tsdb o !! s = Some swm ->
        Latest swm < time.Truncate (metrics.Time sample) time.Millisecond.
Proof.
  intros Hrun s. unfold aggregate in Hrun. rewrite aggregate_flat in Hrun.
  rewrite (foldM_addSample_marks _ _ _ _ _ Hrun s). split.
  - intros [Hin|(x & Hx & Hs & Hlater)]; [set_solver|].
    apply elem_of_concat in Hx as (c & Hc & Hx). by exists c, x.
  - intros (c & x & Hc & Hx & Hs & Hlater). right. exists x.
    split; [|done]. apply elem_of_concat. by exists c.
Qed.

(** *** The latest time after a batch *)

Lemma foldM_addSample_latest samples s : forall seen o seen' o',
  foldM addSample seen samples o = (Done seen', o') ->
  Latest <$> tsdb o' !! s =
  latestAfter (Latest <$> tsdb o !! s)
    (List.filter (fun sample => bool_decide (metrics.Series sample = s))
                 samples).
Proof.
  induction samples as [|x samples IH]; intros seen o seen' o' Hrun;
    cbn [foldM] in Hrun.
  - unfold ret in Hrun. by injection Hrun as <- <-.
  - unfold bind in Hrun.
    destruct (addSample seen x o) as [[seen1|p] o1] eqn:Hx; [|done].
    rewrite (IH _ _ _ _ Hrun). cbn [List.filter]. case_bool_decide as Hs.
    + subst s. cbn [latestAfter foldl]. f_equal.
      destruct (tsdb o !! metrics.Series x) as [swm|] eqn:Hl.
      * rewrite (addSample_present _ _ _ _ Hl) in Hx. injection Hx as <- <-.
        simpl. rewrite lookup_insert_eq. simpl. f_equal.
        destruct (time.After _ _) eqn:Ha;
          [apply After_true in Ha|apply After_false in Ha]; lia.
      * rewrite (addSample_absent _ _ _ Hl) in Hx.
        destruct (newSeriesWithMeasure _ _ _) as [swm0|p]; [|done].
        injection Hx as <- <-. simpl. by rewrite lookup_insert_eq.
    + destruct (addSample_done _ _ _ _ _ Hx) as (_ & _ & _ & Hother).
      rewrite Hother; [done|congruence].
Qed.

Lemma latestAfter_spec samples : forall acc m,
  latestAfter acc samples = Some m ->
  (forall t, acc = Some t -> t <= m) /\
  (forall sample, sample ∈ samples -> truncTimeOf sample <= m) /\
  (acc = Some m \/
   exists sample, sample ∈ samples /\ m = truncTimeOf sample).
Proof.
  induction samples as [|x samples IH]; intros acc m Hm.
  - simpl in Hm. subst acc. split_and!.
    + intros t [= ->]. lia.
    + intros y Hy. by apply elem_of_nil in Hy.
    + by left.
  - cbn [latestAfter foldl] in Hm. apply IH in Hm as (Hacc & Hall & Hfrom).
    split_and!.
    + intros t ->. specialize (Hacc _ eq_refl). lia.
    + intros y [->|Hy]%elem_of_cons; [|by apply Hall].
      specialize (Hacc _ eq_refl). destruct acc; lia.
    + destruct Hfrom as [Heq|(y & Hy & ->)].
      * injection Heq as <-. destruct acc as [t|].
        -- destruct (Z.max_spec t (truncTimeOf x)) as [[_ ->]|[_ ->]].
           ++ right. exists x. split; [by left|done].
           ++ by left.
        -- right. exists x. split; [by left|done].
      * right. exists y. split; [by right|done].
Qed.

Lemma elem_of_samplesOf sample s containers :
  sample ∈ samplesOf s containers <->
  (exists c, c ∈ containers /\ sample ∈ c) /\ metrics.Series sample = s.
Proof.
  unfold samplesOf. rewrite list_elem_of_In, filter_In, <- list_elem_of_In.
  rewrite elem_of_concat. by rewrite bool_decide_eq_true.
Qed.

(** X5. After a conversion that ends, the latest time of a series is the
    largest of the latest time it had before and of the truncated times of
    its samples in the batch: it is at least each of them, and it is one of
    them.  So the timestamp sent for a series that the batch creates is
    that of its latest sample, not of its last one. *)
Theorem latest_is_the_maximum containers o pb o' s swm' :
  convertToPbSeries containers o = (Done pb, o') ->
  tsdb o' !! s = Some swm' ->
  (forall swm, tsdb o !! s = Some swm -> Latest swm <= Latest swm') /\
  (forall c sample,
     c ∈ containers -> sample ∈ c -> metrics.Series sample = s ->
     time.Truncate (metrics.Time sample) time.Millisecond <= Latest swm') /\
  ((exists swm, tsdb o !! s = Some swm /\ Latest swm' = Latest swm) \/
   (exists c sample,
      c ∈ containers /\ sample ∈ c /\ metrics.Series sample = s /\
      Latest swm' = time.Truncate (metrics.Time sample) time.Millisecond)).
Proof.
  intros Hrun Hs'.
  destruct (convertToPbSeries_done _ _ _ _ Hrun) as (seen & Hflat & _).
  pose proof (foldM_addSample_latest _ s _ _ _ _ Hflat) as Heq.
  rewrite Hs' in Heq. simpl in Heq. symmetry in Heq.
  fold (samplesOf s containers) in Heq.
  apply latestAfter_spec in Heq as (Hacc & Hall & Hfrom). split_and!.
  - intros swm Hs. apply Hacc. by rewrite Hs.
  - intros c x Hc Hx Hser. apply (Hall x). apply elem_of_samplesOf.
    split; [by exists c|done].
  - destruct Hfrom as [Hold|(x & Hx & Hm)].
    + left. destruct (tsdb o !! s) as [swm|]; [|done].
      injection Hold as Hold. by exists swm.
    + right. apply elem_of_samplesOf in Hx as ((c & Hc & Hx) & Hser).
      by exists c, x.
Qed.

End marks_facts.

Section wellformed_facts.

Context {collab : Collaborators} {order : MapRange}.

Implicit Types (o : Output) (env : FlushEnv) (seen : gset metrics.TimeSeries)
  (sample : metrics.Sample) (swm : seriesWithMeasure)
  (s : metrics.TimeSeries).

(** *** Properties of the output that every sample keeps *)

Lemma foldM_addSample_keeps (P : Output -> Prop) :
  (forall seen sample o, P o -> P (addSample seen sample o).2) ->
  forall samples seen o, P o -> P (foldM addSample seen samples o).2.
Proof.
  intros Hstep samples.
  induction samples as [|x samples IH]; intros seen o Ho; [done|].
  cbn [foldM]. unfold bind. pose proof (Hstep seen x o Ho) as Hx.
  destruct (addSample seen x o) as [[seen1|p] o1]; simpl in *; [|done].
  by apply IH.
Qed.

Lemma flush_keeps (P : Output -> Prop) :
  (forall seen sample o, P o -> P (addSample seen sample o).2) ->
  forall env o, P o -> P (after (flush env o)).
Proof.
  intros Hstep env o Ho. rewrite flush_after.
  destruct (length (buffered env) <? 1)%nat; [done|].
  unfold aggregate. rewrite aggregate_flat. by apply foldM_addSample_keeps.
Qed.

Lemma run_keeps (P : Output -> Prop) :
  (forall seen sample o, P o -> P (addSample seen sample o).2) ->
  forall envs o, P o -> P (run envs o).
Proof.
  intros Hstep envs.
  induction envs as [|env envs IH]; intros o Ho; simpl; [done|].
  pose proof (flush_keeps P Hstep env o Ho) as Hnext.
  destruct (panicked (flush env o)); [done|by apply IH].
Qed.

Lemma Sink_Add_kind ty sink sample :
  sinkKind ty sink -> sinkKind ty (Sink_Add sink sample).
Proof. by destruct sink. Qed.

Lemma sinkFor_kind series native tsr sink :
  sinkFor series native tsr sink ->
  sinkKind (metrics.Type_ (metrics.Metric_ series)) sink.
Proof.
  intros [[? ->]|[[? ->]|[[? ->]|[(? & _ & ->)|(? & _ & ->)]]]]; done.
Qed.

Lemma addSample_coherent seen sample o :
  coherent o -> coherent (addSample seen sample o).2.
Proof.
  intros Hco. destruct (tsdb o !! metrics.Series sample) as [swm|] eqn:Hl.
  - rewrite (addSample_present _ _ _ _ Hl). intros s swm1. simpl.
    destruct (decide (s = metrics.Series sample)) as [->|Hne].
    + rewrite lookup_insert_eq. intros [= <-]. simpl.
      destruct (Hco _ _ Hl) as [Hts Hk]. split; [done|].
      by apply Sink_Add_kind.
    + rewrite lookup_insert_ne by done. apply Hco.
  - rewrite (addSample_absent _ _ _ Hl).
    destruct (newSeriesWithMeasure _ _ _) as [swm0|p] eqn:Hn; [|done].
    destruct (newSeriesWithMeasure_done _ _ _ _ Hn) as (Hts & _ & Hsink).
    intros s swm1. simpl.
    destruct (decide (s = metrics.Series sample)) as [->|Hne].
    + rewrite lookup_insert_eq. intros [= <-]. simpl. split; [done|].
      apply Sink_Add_kind. by eapply sinkFor_kind.
    + rewrite lookup_insert_ne by done. apply Hco.
Qed.

Lemma Truncate_aligned (t : time.Time) :
  time.Truncate t time.Millisecond mod time.Millisecond = 0.
Proof.
  unfold time.Truncate, time.Millisecond. simpl.
  rewrite Zminus_mod, Z.mod_mod, Z.sub_diag by lia. done.
Qed.

Lemma addSample_aligned seen sample o :
  aligned o -> aligned (addSample seen sample o).2.
Proof.
  intros Hal. destruct (tsdb o !! metrics.Series sample) as [swm|] eqn:Hl.
  - rewrite (addSample_present _ _ _ _ Hl). intros s swm1. simpl.
    destruct (decide (s = metrics.Series sample)) as [->|Hne].
    + rewrite lookup_insert_eq. intros [= <-]. simpl.
      destruct (time.After _ _); [apply Truncate_aligned|by eapply Hal].
    + rewrite lookup_insert_ne by done. apply Hal.
  - rewrite (addSample_absent _ _ _ Hl).
    destruct (newSeriesWithMeasure _ _ _) as [swm0|p] eqn:Hn; [|done].
    intros s swm1. simpl.
    destruct (decide (s = metrics.Series sample)) as [->|Hne].
    + rewrite lookup_insert_eq. intros [= <-]. apply Truncate_aligned.
    + rewrite lookup_insert_ne by done. apply Hal.
Qed.

Lemma New_table_empty params o : New params = Done (Ok o) -> tsdb o = ∅.
Proof.
  unfold New.
  destruct (GetConsolidatedConfig params) as [cfg|e]; [|done].
  destruct (RemoteConfig cfg) as [clientConfig|e]; [|done].
  destruct (NewWriteClient (URL cfg) clientConfig) as [wc|e]; [|done].
  destruct (0 <? length (TrendStats cfg))%nat; [|by intros [= <-]].
  destruct (setTrendStatsResolver _ _) as [[[err|]|p] o1] eqn:Hset; try done.
  intros [= <-].
  destruct (setTrendStatsResolver_done _ _ _ Hset) as (l & _ & _ & Hloop).
  destruct (storeResolver_loop _ _ _ Hloop) as ((_ & Ht & _) & _).
  by rewrite Ht.
Qed.

(** X7. The table of an output built by [New] is well formed, and every
    flush and every run of flushes keeps it so, whether they end or panic:
    each state is stored under its own series, holds the sink that
    [MapPrompb] asserts for the kind of the series, and has a latest time
    that is a whole number of milliseconds. *)
Theorem tables_stay_well_formed :
  (forall params o, New params = Done (Ok o) -> coherent o /\ aligned o) /\
  (forall env o, coherent o -> aligned o ->
     coherent (after (flush env o)) /\ aligned (after (flush env o))) /\
  (forall envs o, coherent o -> aligned o ->
     coherent (run envs o) /\ aligned (run envs o)).
Proof.
  split_and!.
  - intros params o Hnew. apply New_table_empty in Hnew.
    split; intros s swm; by rewrite Hnew, lookup_empty.
  - intros env o Hco Hal. split.
    + by apply (flush_keeps coherent addSample_coherent).
    + by apply (flush_keeps aligned addSample_aligned).
  - intros envs o Hco Hal. split.
    + by apply (run_keeps coherent addSample_coherent).
    + by apply (run_keeps aligned addSample_aligned).
Qed.

(** *** Marked again means later *)

Lemma foldM_addSample_marked_later samples s : forall seen o seen' o' swm,
  foldM addSample seen samples o = (Done seen', o') ->
  tsdb o !! s = Some swm -> s ∉ seen -> s ∈ seen' ->
  exists swm', tsdb o' !! s = Some swm' /\ Latest swm < Latest swm'.
Proof.
  induction samples as [|x samples IH]; intros seen o seen' o' swm Hrun Hs
    Hnot Hin; cbn [foldM] in Hrun.
  - unfold ret in Hrun. injection Hrun as <- <-. done.
  - unfold bind in Hrun.
    destruct (addSample seen x o) as [[seen1|p] o1] eqn:Hx; [|done].
    assert (Hle : latest_le o1 o').
    { pose proof (foldM_preserves addSample latest_le
                    (Reflexive0 := latest_le_refl)
                    (Transitive0 := latest_le_trans)
                    addSample_latest_le samples seen1 o1) as H.
      by rewrite Hrun in H. }
    destruct (decide (metrics.Series x = s)) as [<-|Hne].
    + rewrite (addSample_present _ _ _ _ Hs) in Hx.
      destruct (time.After (truncTimeOf x) (Latest swm)) eqn:Ha;
        injection Hx as <- <-.
      * apply After_true in Ha.
        destruct (Hle (metrics.Series x)
                    {| TimeSeries := TimeSeries swm;
                       Measure := Sink_Add (Measure swm) x;
                       Latest := truncTimeOf x |})
          as (swm' & Hs' & Hle'); [simpl; apply lookup_insert_eq|].
        exists swm'. split; [done|]. simpl in Hle'. lia.
      * destruct (IH _ _ _ _
                    {| TimeSeries := TimeSeries swm;
                       Measure := Sink_Add (Measure swm) x;
                       Latest := Latest swm |} Hrun)
          as (swm' & Hs' & Hlt); [simpl; apply lookup_insert_eq|done..|].
        by exists swm'.
    + destruct (addSample_done _ _ _ _ _ Hx) as (_ & Hsup & _ & Hother).
      apply (IH _ _ _ _ swm Hrun); [|set_solver|done].
      rewrite Hother; [done|congruence].
Qed.

Lemma Truncate_milli (t : time.Time) :
  time.Truncate t time.Millisecond / 1000000 = t / 1000000.
Proof.
  unfold time.Truncate, time.Millisecond. simpl.
  pose proof (Z.div_mod t 1000000 ltac:(lia)) as Hdm.
  replace (t - t mod 1000000) with (t / 1000000 * 1000000) by lia.
  apply Z.div_mul. lia.
Qed.

Lemma UnixMilli_in_range (t : time.Time) :
  inMilliRange t -> time.UnixMilli t = t / 1000000.
Proof.
  unfold inMilliRange, time.UnixMilli, time.wrap64. intros Hr.
  rewrite Z.mod_small; lia.
Qed.

(** The latest time that a batch leaves for a series is the one it had or
    the truncated time of a sample of the series. *)
Lemma foldM_addSample_latest_from samples s : forall seen o seen' o' swm swm',
  foldM addSample seen samples o = (Done seen', o') ->
  tsdb o !! s = Some swm -> tsdb o' !! s = Some swm' ->
  Latest swm' = Latest swm \/
  exists x, x ∈ samples /\ metrics.Series x = s /\
            Latest swm' = truncTimeOf x.
Proof.
  induction samples as [|x samples IH]; intros seen o seen' o' swm swm' Hrun
    Hs Hs'; cbn [foldM] in Hrun.
  - unfold ret in Hrun. injection Hrun as <- <-. left. congruence.
  - unfold bind in Hrun.
    destruct (addSample seen x o) as [[seen1|p] o1] eqn:Hx; [|done].
    destruct (decide (metrics.Series x = s)) as [<-|Hne].
    + rewrite (addSample_present _ _ _ _ Hs) in Hx.
      injection Hx as <- <-.
      destruct (IH _ _ _ _ _ swm' Hrun (lookup_insert_eq _ _ _) Hs')
        as [Heq|(y & Hy & Hsy & Hly)].
      * simpl in Heq. destruct (time.After _ _); [|by left].
        right. exists x. split; [left|done].
      * right. exists y. split; [by right|done].
    + destruct (addSample_done _ _ _ _ _ Hx) as (_ & _ & _ & Hother).
      destruct (IH _ _ _ _ swm swm' Hrun) as [Heq|(y & Hy & Hsy & Hly)];
        [rewrite Hother; [done|congruence]|done|by left|].
      right. exists y. split; [by right|done].
Qed.

(** X6. In a table whose latest times are whole milliseconds, a series
    that a batch marks again ends with a strictly later latest time.  When
    the millisecond counts of the stored latest time and of the batch's
    samples of the series fit an [int64] (so that [UnixMilli] does not wrap
    around), the new latest time lies in a later millisecond: every point
    that [MapPrompb] gives for the new state has a timestamp strictly after
    every point given for the state the series had before the batch.
    Within that range the timestamps sent for a series strictly increase
    from one flush to the next. *)
Theorem marked_again_is_later containers o seen o' s swm :
  aligned o ->
  aggregate containers o = (Done seen, o') ->
  tsdb o !! s = Some swm ->
  s ∈ seen ->
  inMilliRange (Latest swm) ->
  (forall c sample, c ∈ containers -> sample ∈ metrics.GetSamples c ->
     metrics.Series sample = s -> inMilliRange (metrics.Time sample)) ->
  exists swm',
    tsdb o' !! s = Some swm' /\
    Latest swm < Latest swm' /\
    time.UnixMilli (Latest swm) < time.UnixMilli (Latest swm') /\
    forall block block' ts ts' t t',
      MapPrompb swm = Done block -> MapPrompb swm' = Done block' ->
      ts ∈ block -> ts' ∈ block' ->
      t ∈ timestamps ts -> t' ∈ timestamps ts' ->
      t < t'.
Proof.
  intros Hal Hrun Hs Hin Hr Hrs.
  assert (Hal' : aligned o').
  { pose proof (foldM_addSample_keeps aligned addSample_aligned
                  (concat containers) ∅ o Hal) as H.
    unfold aggregate in Hrun. rewrite aggregate_flat in Hrun.
    by rewrite Hrun in H. }
  unfold aggregate in Hrun. rewrite aggregate_flat in Hrun.
  destruct (foldM_addSample_marked_later _ s _ _ _ _ swm Hrun Hs)
    as (swm' & Hs' & Hlt); [set_solver|done|].
  assert (Hr' : inMilliRange (Latest swm')).
  { destruct (foldM_addSample_latest_from _ s _ _ _ _ swm swm' Hrun Hs Hs')
      as [Heq|(x & Hx & Hsx & Hlx)]; [by rewrite Heq|].
    rewrite Hlx. unfold inMilliRange, truncTimeOf.
    rewrite Truncate_milli.
    apply elem_of_concat in Hx as (c & Hc & Hxc).
    exact (Hrs c x Hc Hxc Hsx). }
  assert (Hms : time.UnixMilli (Latest swm) < time.UnixMilli (Latest swm')).
  { rewrite !UnixMilli_in_range by done.
    specialize (Hal _ _ Hs). specialize (Hal' _ _ Hs').
    unfold time.Millisecond in *.
    pose proof (Z.div_mod (Latest swm) 1000000 ltac:(lia)).
    pose proof (Z.div_mod (Latest swm') 1000000 ltac:(lia)). lia. }
  exists swm'. split_and!; [done..|].
  intros block block' ts ts' t t' Hb Hb' Hts Hts' Ht Ht'.
  destruct (MapPrompb_shape _ _ Hb) as (Hall & _).
  destruct (MapPrompb_shape _ _ Hb') as (Hall' & _).
  rewrite Forall_forall in Hall, Hall'.
  apply list_elem_of_In in Hts, Hts'.
  rewrite (Hall _ Hts) in Ht. rewrite (Hall' _ Hts') in Ht'.
  apply list_elem_of_singleton in Ht, Ht'. by subst.
Qed.

End wellformed_facts.

Section panic_facts.

Context {collab : Collaborators} {order : MapRange}.

Implicit Types (o : Output) (env : FlushEnv) (seen : gset metrics.TimeSeries)
  (sample : metrics.Sample) (swm : seriesWithMeasure)
  (s : metrics.TimeSeries).

(** *** Where a conversion can panic *)

Lemma newSeriesWithMeasure_panic series native tsr p :
  newSeriesWithMeasure series native tsr = Panicked p -> factoryPanic p.
Proof.
  unfold newSeriesWithMeasure, newExtendedTrendSink.
  repeat match goal with
         | |- context [if ?c then _ else _] => destruct c
         end; try discriminate.
  - destruct (extendedTrendSinkError tsr); [|discriminate].
    by intros [= <-].
  - by intros [= <-].
Qed.

Lemma foldM_addSample_panic samples : forall seen o p o',
  foldM addSample seen samples o = (Panicked p, o') -> factoryPanic p.
Proof.
  induction samples as [|x samples IH]; intros seen o p o' Hrun;
    cbn [foldM] in Hrun; [done|].
  unfold bind in Hrun.
  destruct (addSample seen x o) as [[seen1|p1] o1] eqn:Hx; [by eapply IH|].
  injection Hrun as <- <-.
  destruct (tsdb o !! metrics.Series x) as [swm|] eqn:Hl.
  - by rewrite (addSample_present _ _ _ _ Hl) in Hx.
  - rewrite (addSample_absent _ _ _ Hl) in Hx.
    destruct (newSeriesWithMeasure _ _ _) as [swm0|p0] eqn:Hn; [done|].
    injection Hx as <- _. by eapply newSeriesWithMeasure_panic.
Qed.

Lemma foldM_addSample_total samples : forall seen o,
  (forall sample, sample ∈ samples -> buildable o (metrics.Series sample)) ->
  exists seen' o', foldM addSample seen samples o = (Done seen', o').
Proof.
  induction samples as [|x samples IH]; intros seen o Hall; [by eexists _, _|].
  cbn [foldM]. unfold bind.
  assert (Hx : exists seen1 o1, addSample seen x o = (Done seen1, o1)).
  { destruct (tsdb o !! metrics.Series x) as [swm|] eqn:Hl.
    - rewrite (addSample_present _ _ _ _ Hl). by eexists _, _.
    - rewrite (addSample_absent _ _ _ Hl).
      destruct (newSeriesWithMeasure_buildable o (metrics.Series x))
        as (swm0 & ->); [apply Hall; by left|]. by eexists _, _. }
  destruct Hx as (seen1 & o1 & Hx). rewrite Hx. apply IH.
  intros y Hy. pose proof (addSample_settings seen x o) as (Hc & Hr & _).
  rewrite Hx in Hc, Hr. simpl in Hc, Hr.
  destruct (Hall y) as [Hrec Htrend]; [by right|].
  split; [done|]. by rewrite Hc, Hr.
Qed.

Lemma MapPrompb_coherent swm :
  sinkKind (metrics.Type_ (metrics.Metric_ (TimeSeries swm))) (Measure swm) ->
  exists newts, MapPrompb swm = Done newts.
Proof.
  unfold MapPrompb, sinkKind.
  destruct (Measure swm) as [v|v|a b|t tsr|h]; intros ->; by eexists.
Qed.

Lemma encode_total seen o :
  coherent o -> (forall s, s ∈ seen -> is_Some (tsdb o !! s)) ->
  exists pb, encode seen o = (Done pb, o).
Proof.
  intros Hco Hin. unfold encode.
  assert (Hall : forall s, s ∈ rangeSeen seen -> is_Some (tsdb o !! s)).
  { intros s Hs. apply Hin. by apply (proj2 (rangeSeen_spec seen)). }
  clear Hin. generalize (@nil PbSeries).
  induction (rangeSeen seen) as [|s l IH]; intros acc; [by eexists|].
  cbn [foldM]. unfold bind at 1.
  destruct (Hall s) as (swm & Hs); [by left|].
  destruct (Hco _ _ Hs) as [Hts Hk]. rewrite <- Hts in Hk.
  destruct (MapPrompb_coherent _ Hk) as (newts & Hm).
  unfold encodeSeries at 1. unfold bind, get, lift, ret. rewrite Hs, Hm.
  apply IH. intros s' Hs'. apply Hall. by right.
Qed.

(** X8. On a well-formed table a flush can panic in the sink factory
    only: the type assertions and the default case of [MapPrompb], and the
    lookup of a marked series, never fail.  When moreover every sample of
    the batch is of one of the four kinds, and the trend sink accepts the
    resolver table where a classic trend is met, the flush does not
    panic. *)
Theorem flush_panics_only_in_the_factory env o :
  coherent o ->
  (forall p, panicked (flush env o) = Some p -> factoryPanic p) /\
  ((forall c sample, c ∈ buffered env -> sample ∈ c ->
      buildable o (metrics.Series sample)) ->
   panicked (flush env o) = None).
Proof.
  intros Hco.
  assert (Hconv : forall seen o',
    aggregate (buffered env) o = (Done seen, o') ->
    exists pb, convertToPbSeries (buffered env) o = (Done pb, o')).
  { intros seen o' Hagg.
    assert (Hco' : coherent o').
    { pose proof (foldM_addSample_keeps coherent addSample_coherent
                    (concat (buffered env)) ∅ o Hco) as H.
      unfold aggregate in Hagg. rewrite aggregate_flat in Hagg.
      by rewrite Hagg in H. }
    destruct (encode_total seen o' Hco'
                (aggregate_seen_in_table _ _ _ _ Hagg)) as (pb & Henc).
    exists pb. unfold convertToPbSeries, bind. by rewrite Hagg. }
  split.
  - intros p. unfold flush.
    destruct (length (buffered env) <? 1)%nat; [done|].
    destruct (aggregate (buffered env) o) as [[seen|p0] o1] eqn:Hagg.
    + destruct (Hconv _ _ eq_refl) as (pb & ->).
      by destruct (store env pb).
    + unfold convertToPbSeries, bind. rewrite Hagg. intros [= <-].
      unfold aggregate in Hagg. rewrite aggregate_flat in Hagg.
      by eapply foldM_addSample_panic.
  - intros Hall. unfold flush.
    destruct (length (buffered env) <? 1)%nat; [done|].
    destruct (foldM_addSample_total (concat (buffered env)) ∅ o)
      as (seen & o1 & Hflat).
    { intros sample Hin. apply elem_of_concat in Hin as (c & Hc & Hin).
      by eapply Hall. }
    assert (Hagg : aggregate (buffered env) o = (Done seen, o1)).
    { unfold aggregate. by rewrite aggregate_flat. }
    destruct (Hconv _ _ Hagg) as (pb & ->). by destruct (store env pb).
Qed.

(** *** Containers without samples *)

Lemma concat_all_nil {A} (ls : list (list A)) :
  (forall l, l ∈ ls -> l = []) -> concat ls = [].
Proof.
  induction ls as [|l ls IH]; intros Hall; [done|].
  simpl. rewrite (Hall l) by left. apply IH. intros l' Hl'. apply Hall.
  by right.
Qed.

(** X9. The flush skips on the number of containers, not of samples: when
    it drains containers that hold no sample, it still calls the
    transport, once, with an empty batch, logs the error if the call
    fails, and leaves the output as it was. *)
Theorem flush_without_samples env o :
  buffered env ≠ [] ->
  (forall c, c ∈ buffered env -> c = []) ->
  after (flush env o) = o /\
  panicked (flush env o) = None /\
  trace (flush env o) =
    ([DebugConverted 0; Store []]
     ++ match store env [] with
        | Some err => [ErrorStore err]
        | None => []
        end
     ++ [flushDeferred o (elapsed env) 0])%list.
Proof.
  intros Hne Hall.
  assert (Hconv : convertToPbSeries (buffered env) o = (Done [], o)).
  { unfold convertToPbSeries, bind, aggregate. rewrite aggregate_flat.
    rewrite (concat_all_nil _ Hall). cbn [foldM]. unfold ret, encode.
    by rewrite rangeSeen_empty. }
  unfold flush.
  destruct (buffered env) as [|c cs] eqn:Hb; [done|].
  change (length (c :: cs) <? 1)%nat with false. cbv iota.
  rewrite Hconv. by destruct (store env []).
Qed.

(** *** Flushes one after the other *)

Lemma addSample_any_seen seen1 seen2 sample o :
  (addSample seen1 sample o).2 = (addSample seen2 sample o).2 /\
  (forall p, (addSample seen1 sample o).1 = Panicked p <->
             (addSample seen2 sample o).1 = Panicked p).
Proof.
  destruct (tsdb o !! metrics.Series sample) as [swm|] eqn:Hl.
  - rewrite !(addSample_present _ _ _ _ Hl). by split.
  - rewrite !(addSample_absent _ _ _ Hl).
    by destruct (newSeriesWithMeasure _ _ _).
Qed.

Lemma foldM_addSample_any_seen samples : forall seen1 seen2 o,
  (foldM addSample seen1 samples o).2 = (foldM addSample seen2 samples o).2.
Proof.
  induction samples as [|x samples IH]; intros seen1 seen2 o; [done|].
  cbn [foldM]. unfold bind.
  destruct (addSample_any_seen seen1 seen2 x o) as [Hst Hp].
  destruct (addSample seen1 x o) as [[s1|p1] o1],
           (addSample seen2 x o) as [[s2|p2] o2]; simpl in *; subst.
  - apply IH.
  - discriminate (proj2 (Hp p2) eq_refl).
  - discriminate (proj1 (Hp p1) eq_refl).
  - done.
Qed.

(** X11. The table does not depend on how the samples are cut into
    flushes: after a flush that does not panic, a second flush leaves the
    output that one flush of the containers of both, in order, leaves.
    Only the marks, and so what is sent, depend on the cut. *)
Theorem flushes_compose env1 env2 env12 o :
  buffered env12 = (buffered env1 ++ buffered env2)%list ->
  panicked (flush env1 o) = None ->
  after (flush env2 (after (flush env1 o))) = after (flush env12 o).
Proof.
  intros Hb Hp.
  assert (Hstate : forall cs o0,
    after (flush {| buffered := cs; elapsed := 0; store := fun _ => None |} o0)
    = (foldM addSample ∅ (concat cs) o0).2).
  { intros cs o0. rewrite flush_after. simpl.
    destruct cs as [|c cs]; [done|]. simpl length.
    change (S (length cs) <? 1)%nat with false. cbv iota.
    unfold aggregate. by rewrite aggregate_flat. }
  assert (Hafter : forall env o0,
    after (flush env o0) = (foldM addSample ∅ (concat (buffered env)) o0).2).
  { intros env o0. rewrite <- Hstate. by rewrite !flush_after. }
  rewrite !Hafter, Hb, concat_app, foldM_app.
  assert (Hdone : exists seen1 o1,
    foldM addSample ∅ (concat (buffered env1)) o = (Done seen1, o1)).
  { unfold flush in Hp.
    destruct (length (buffered env1) <? 1)%nat eqn:Hlen.
    - destruct (buffered env1); [by eexists _, _|done].
    - unfold convertToPbSeries, bind, aggregate in Hp.
      rewrite aggregate_flat in Hp.
      destruct (foldM addSample ∅ (concat (buffered env1)) o)
        as [[seen1|p] o1]; [by eexists _, _|done]. }
  destruct Hdone as (seen1 & o1 & ->). simpl.
  apply foldM_addSample_any_seen.
Qed.

End panic_facts.

Section key_facts.

Context {collab : Collaborators} {order : MapRange}.

(** X10. The key of a percentile keeps no dot, so that two requested
    percentiles that differ by dots only, as p(9.5) and p(95), have one
    key: the table built for the two holds one resolver, under that
    key. *)
Theorem percentile_keys_ignore_dots (x y : string) (o o' : Output) :
  ReplaceAll_empty x "."%char = ReplaceAll_empty y "."%char ->
  setTrendStatsResolver ["p(" ++ x ++ ")"; "p(" ++ y ++ ")"] o
    = (Done None, o') ->
  statKeyOf ("p(" ++ x ++ ")") = statKeyOf ("p(" ++ y ++ ")") /\
  forall k,
    is_Some (trendStatsResolver o' !! k) <->
    k = "p" ++ ReplaceAll_empty x "."%char.
Proof.
  intros Hxy Hrun.
  split; [by rewrite !statKeyOf_percentile, Hxy|].
  destruct (setTrendStatsResolver_done _ _ _ Hrun) as (l & Hl & Hok & Hloop).
  destruct (storeResolver_loop _ _ _ Hloop) as (_ & Hall & _ & Hfrom).
  intros k. split.
  - intros (fn & Hk). destruct (Hfrom _ _ Hk) as [Hold|(stat & Hin & Hkey)].
    + simpl in Hold. by rewrite lookup_empty in Hold.
    + apply Hl in Hin as [Hin _].
      apply elem_of_cons in Hin as [->|Hin].
      * rewrite statKeyOf_percentile in Hkey. by injection Hkey as <-.
      * apply list_elem_of_singleton in Hin as ->.
        rewrite statKeyOf_percentile, <- Hxy in Hkey. by injection Hkey as <-.
  - intros ->.
    assert (Hin : "p(" ++ x ++ ")" ∈ ["p(" ++ x ++ ")"; "p(" ++ y ++ ")"])
      by left.
    destruct (requested_exists _ _ Hin (Hok _ Hin)) as (fn & Hreq).
    apply Hl in Hreq. destruct (Hall _ _ Hreq) as (k & Hkey & Hsome).
    rewrite statKeyOf_percentile in Hkey. by injection Hkey as <-.
Qed.

End key_facts.

(** * The further properties at concrete inputs *)

Module more_examples.

Import demo.

Lemma o0_table : tsdb o0 = ∅.
Proof. reflexivity. Qed.

Lemma o0_well_formed : coherent o0 /\ aligned o0.
Proof. split; intros s swm; by rewrite o0_table, lookup_empty. Qed.

Lemma o1_well_formed : coherent o1 /\ aligned o1.
Proof.
  destruct o0_well_formed as [Hco Hal]. split.
  - by apply (flush_keeps coherent addSample_coherent).
  - by apply (flush_keeps aligned addSample_aligned).
Qed.

Lemma o1_http_reqs :
  tsdb o1 !! http_reqs
  = Some {| TimeSeries := http_reqs; Measure := CounterSink 6%float;
            Latest := 1000000 |}.
Proof. reflexivity. Qed.

(** X3 at the first batch: the counter enters the table. *)
Lemma table_after_batch_witness :
  convertToPbSeries first_batch o0 = (Done first_wire, o1) /\
  is_Some (tsdb o1 !! http_reqs).
Proof.
  assert (Hrun : convertToPbSeries first_batch o0 = (Done first_wire, o1))
    by reflexivity.
  split; [exact Hrun|].
  apply (proj2 (table_after_batch first_batch o0 first_wire o1 Hrun
                  http_reqs)).
  right. eexists _, _. split; [by left|]. split; [by left|done].
Defined.

(** X4 at the later batch: the counter is marked again. *)
Lemma marked_iff_created_or_advanced_witness :
  aggregate later_batch o1 = (Done {[ http_reqs ]}, o2) /\
  http_reqs ∈ ({[ http_reqs ]} : gset metrics.TimeSeries) /\
  exists c sample,
    c ∈ later_batch /\ sample ∈ c /\ metrics.Series sample = http_reqs /\
    forall swm,
      tsdb o1 !! http_reqs = Some swm ->
      Latest swm < time.Truncate (metrics.Time sample) time.Millisecond.
Proof.
  assert (Hrun : aggregate later_batch o1 = (Done {[ http_reqs ]}, o2))
    by reflexivity.
  split; [exact Hrun|].
  assert (Hin : http_reqs ∈ ({[ http_reqs ]} : gset metrics.TimeSeries))
    by set_solver.
  split; [exact Hin|].
  exact (proj1 (marked_iff_created_or_advanced later_batch o1 _ o2 Hrun
                  http_reqs) Hin).
Defined.

(** X5 at the unordered batch: the latest time is that of the first
    sample, the later one. *)
Lemma latest_is_the_maximum_witness :
  (convertToPbSeries unordered_batch o0
     = (Done [ {| prompb.Labels := labels vus "";
                  prompb.Samples :=
                    [ {| prompb.Value := 7%float; prompb.Timestamp := 5 |} ];
                  prompb.Histograms := [] |} ],
        (convertToPbSeries unordered_batch o0).2) /\
   tsdb (convertToPbSeries unordered_batch o0).2 !! vus
     = Some {| TimeSeries := vus; Measure := GaugeSink 7%float;
               Latest := 5000000 |}) /\
  forall c sample,
    c ∈ unordered_batch -> sample ∈ c -> metrics.Series sample = vus ->
    time.Truncate (metrics.Time sample) time.Millisecond <= 5000000.
Proof.
  assert (Hrun : convertToPbSeries unordered_batch o0
     = (Done [ {| prompb.Labels := labels vus "";
                  prompb.Samples :=
                    [ {| prompb.Value := 7%float; prompb.Timestamp := 5 |} ];
                  prompb.Histograms := [] |} ],
        (convertToPbSeries unordered_batch o0).2)) by reflexivity.
  assert (Hs : tsdb (convertToPbSeries unordered_batch o0).2 !! vus
     = Some {| TimeSeries := vus; Measure := GaugeSink 7%float;
               Latest := 5000000 |}) by reflexivity.
  split; [by split|].
  exact (proj1 (proj2 (latest_is_the_maximum unordered_batch o0 _ _ vus _
                         Hrun Hs))).
Defined.

(** X6 at the later batch: the counter moves from the first to the third
    millisecond. *)
Lemma marked_again_is_later_witness :
  (aligned o1 /\
   aggregate later_batch o1 = (Done {[ http_reqs ]}, o2) /\
   tsdb o1 !! http_reqs
     = Some {| TimeSeries := http_reqs; Measure := CounterSink 6%float;
               Latest := 1000000 |} /\
   http_reqs ∈ ({[ http_reqs ]} : gset metrics.TimeSeries) /\
   inMilliRange 1000000 /\
   inMilliRange 3000000) /\
  exists swm',
    tsdb o2 !! http_reqs = Some swm' /\
    1000000 < Latest swm' /\
    time.UnixMilli 1000000 < time.UnixMilli (Latest swm').
Proof.
  assert (Hal : aligned o1) by apply o1_well_formed.
  assert (Hrun : aggregate later_batch o1 = (Done {[ http_reqs ]}, o2))
    by reflexivity.
  assert (Hin : http_reqs ∈ ({[ http_reqs ]} : gset metrics.TimeSeries))
    by set_solver.
  assert (Hr1 : inMilliRange 1000000).
  { split; [intros Hgt; discriminate Hgt|reflexivity]. }
  assert (Hr3 : inMilliRange 3000000).
  { split; [intros Hgt; discriminate Hgt|reflexivity]. }
  split;
    [split_and!; [exact Hal|exact Hrun|exact o1_http_reqs|exact Hin
                 |exact Hr1|exact Hr3]|].
  destruct (marked_again_is_later later_batch o1 _ o2 http_reqs _
              Hal Hrun o1_http_reqs Hin Hr1) as (swm' & Hs' & Hlt & Hms & _).
  { intros c x Hc Hx _. unfold later_batch in Hc.
    apply list_elem_of_singleton in Hc as ->.
    apply list_elem_of_singleton in Hx as ->. exact Hr3. }
  exists swm'. split_and!; [exact Hs'|exact Hlt|exact Hms].
Defined.

(** Beyond the range the millisecond count wraps around: a request [2^63]
    milliseconds after the epoch marks the counter again, its latest time
    is later, and the timestamp sent for it is [-2^63], before the
    timestamp 1 of the first flush. *)
Example far_future_timestamp_wraps :
  (convertToPbSeries far_batch o1).1
  = Done [ {| prompb.Labels := labels http_reqs "";
              prompb.Samples :=
                [ {| prompb.Value := 7%float;
                     prompb.Timestamp := - 2 ^ 63 |} ];
              prompb.Histograms := [] |} ].
Proof. reflexivity. Qed.

(** X8 at the later batch: a counter on a well-formed table. *)
Lemma flush_panics_only_in_the_factory_witness :
  coherent o1 /\
  panicked (flush (env later_batch 1000 None) o1) = None.
Proof.
  assert (Hco : coherent o1) by apply o1_well_formed.
  split; [exact Hco|].
  apply (proj2 (flush_panics_only_in_the_factory
                  (env later_batch 1000 None) o1 Hco)).
  intros c x Hc Hx. unfold later_batch in Hc. simpl in Hc.
  apply list_elem_of_singleton in Hc as ->.
  apply list_elem_of_singleton in Hx as ->.
  split; [left; reflexivity|]. intros Hty. discriminate Hty.
Defined.

(** X9 at two containers without a sample. *)
Lemma flush_without_samples_witness :
  (buffered (env hollow_batch 1000 None) ≠ [] /\
   forall c, c ∈ buffered (env hollow_batch 1000 None) -> c = []) /\
  after (flush (env hollow_batch 1000 None) o1) = o1 /\
  trace (flush (env hollow_batch 1000 None) o1)
    = [DebugConverted 0; Store []; DebugFlushed 0 1000].
Proof.
  assert (Hne : buffered (env hollow_batch 1000 None) ≠ []) by discriminate.
  assert (Hall : forall c, c ∈ buffered (env hollow_batch 1000 None) ->
                           c = []).
  { intros c Hc. simpl in Hc. unfold hollow_batch in Hc.
    repeat (apply elem_of_cons in Hc as [->|Hc]); try done.
    by apply elem_of_nil in Hc. }
  split; [by split|].
  destruct (flush_without_samples (env hollow_batch 1000 None) o1 Hne Hall)
    as (Ha & _ & Ht).
  split; [exact Ha|exact Ht].
Defined.

(** X10 at p(9.5) and p(95): one key, p95. *)
Lemma percentile_keys_ignore_dots_witness :
  (ReplaceAll_empty "9.5" "."%char = ReplaceAll_empty "95" "."%char /\
   setTrendStatsResolver ["p(9.5)"; "p(95)"] o0
     = (Done None, (setTrendStatsResolver ["p(9.5)"; "p(95)"] o0).2)) /\
  forall k,
    is_Some (trendStatsResolver
               (setTrendStatsResolver ["p(9.5)"; "p(95)"] o0).2 !! k) <->
    k = "p95".
Proof.
  assert (Hxy : ReplaceAll_empty "9.5" "."%char
                = ReplaceAll_empty "95" "."%char) by reflexivity.
  assert (Hrun : setTrendStatsResolver ["p(9.5)"; "p(95)"] o0
     = (Done None, (setTrendStatsResolver ["p(9.5)"; "p(95)"] o0).2))
    by reflexivity.
  split; [by split|].
  exact (proj2 (percentile_keys_ignore_dots "9.5" "95" o0 _ Hxy Hrun)).
Defined.

(** X11 at the first and the later batch. *)
Lemma flushes_compose_witness :
  (buffered (env (first_batch ++ later_batch) 1000 None)
     = (buffered (env first_batch 1000 None)
        ++ buffered (env later_batch 1000 None))%list /\
   panicked (flush (env first_batch 1000 None) o0) = None) /\
  after (flush (env later_batch 1000 None)
           (after (flush (env first_batch 1000 None) o0)))
  = after (flush (env (first_batch ++ later_batch) 1000 None) o0).
Proof.
  assert (Hb : buffered (env (first_batch ++ later_batch) 1000 None)
     = (buffered (env first_batch 1000 None)
        ++ buffered (env later_batch 1000 None))%list) by reflexivity.
  assert (Hp : panicked (flush (env first_batch 1000 None) o0) = None)
    by reflexivity.
  split; [by split|].
  exact (flushes_compose (env first_batch 1000 None)
           (env later_batch 1000 None)
           (env (first_batch ++ later_batch) 1000 None) o0 Hb Hp).
Defined.

End more_examples.
